(** * codex-mcp: the JSON-RPC bridge of [server.js]

    A shallow embedding of the server: the JavaScript values it handles, the
    command builders of the three tools, the subprocess runner with its
    line-by-line event extractor, and the dispatcher.

    Conventions.
    - A JavaScript string is kept as the bytes of its UTF-8 encoding
      ([string]).  Every comparison the server makes is against ASCII text,
      and [trim] below strips the multi-byte white space as well.
    - What the runtime supplies ([JSON.parse], [process.cwd()], [Date.now()],
      the behaviour of the child process) is gathered in [Env].
    - Each inbound line is handled to completion: the promise of a tool call
      is settled by the finished behaviour of its child process. *)

From Stdlib Require Import String Ascii List ZArith Lia Bool DecimalString.
Import ListNotations.
Local Open Scope string_scope.
Set Warnings "-register-all".

(** ** Text helpers *)

Definition dquote : ascii := ascii_of_nat 34.
Definition nl : string := String (ascii_of_nat 10) EmptyString.

(** Test data and two descriptor texts contain double quotes; they are
    written with apostrophes and converted. *)
Fixpoint dq (s : string) : string :=
  match s with
  | EmptyString => EmptyString
  | String c r => String (if (c =? "'")%char then dquote else c) (dq r)
  end.

Definition is_empty (s : string) : bool :=
  match s with EmptyString => true | String _ _ => false end.

Module JS.

(** ** Values *)

(** A Number is kept as the text [Number::toString] gives for it: the server
    tests numbers for truthiness, renders them into messages and uses them as
    [Map] keys, and nothing else. *)
Inductive JSValue : Type :=
| JUndefined
| JNull
| JBool (b : bool)
| JNum (repr : string)
| JStr (s : string)
| JArr (items : list JSValue)
| JObj (fields : list (string * JSValue)).

(** Thrown values.  The texts of engine errors are V8's. *)
Inductive jserror : Type :=
| Error (msg : string)
| TypeError (msg : string)
| SyntaxError (msg : string).

Definition message_of (e : jserror) : string :=
  match e with Error m | TypeError m | SyntaxError m => m end.

Definition completion (A : Type) : Type := (jserror + A)%type.

(** [ToBoolean] *)
Definition truthy (v : JSValue) : bool :=
  match v with
  | JUndefined | JNull => false
  | JBool b => b
  | JNum repr => negb ((repr =? "0") || (repr =? "NaN"))
  | JStr s => negb (is_empty s)
  | JArr _ | JObj _ => true
  end.

(** [v === "lit"] against a string literal *)
Definition strict_eq_str (v : JSValue) (lit : string) : bool :=
  match v with JStr s => (s =? lit) | _ => false end.

Fixpoint lookup (k : string) (fields : list (string * JSValue)) : option JSValue :=
  match fields with
  | [] => None
  | (k', v) :: rest => if (k' =? k) then Some v else lookup k rest
  end.

(** [v.k] for the property names the server reads (method, id, params, name,
    arguments, prompt, cwd, sessionId, mode, base, commit, type, thread_id,
    item, text): none of them is defined on a built-in prototype, so only an
    object's own property can answer, and reading from [null] or [undefined]
    throws. *)
Definition get (v : JSValue) (k : string) : completion JSValue :=
  match v with
  | JUndefined =>
      inl (TypeError ("Cannot read properties of undefined (reading '" ++ k ++ "')"))
  | JNull =>
      inl (TypeError ("Cannot read properties of null (reading '" ++ k ++ "')"))
  | JObj fields => inr (match lookup k fields with Some x => x | None => JUndefined end)
  | _ => inr JUndefined
  end.

(** [v?.k] *)
Definition get_opt (v : JSValue) (k : string) : JSValue :=
  match get v k with inr x => x | inl _ => JUndefined end.

(** [ToString], as used by template literals and [String(v)].  An array is
    joined with commas, [null] and [undefined] items giving the empty text; a
    plain object answers "[object Object]" unless an own [toString] property
    (never callable in parsed JSON) shadows the inherited method. *)
Fixpoint ToString (v : JSValue) : completion string :=
  match v with
  | JUndefined => inr "undefined"
  | JNull => inr "null"
  | JBool true => inr "true"
  | JBool false => inr "false"
  | JNum repr => inr repr
  | JStr s => inr s
  | JArr items =>
      (fix join (xs : list JSValue) : completion string :=
         match xs with
         | [] => inr ""
         | x :: rest =>
             let item := match x with
                         | JUndefined | JNull => inr ""
                         | _ => ToString x
                         end in
             match item with
             | inl e => inl e
             | inr s =>
                 match rest with
                 | [] => inr s
                 | _ :: _ =>
                     match join rest with
                     | inl e => inl e
                     | inr t => inr (s ++ "," ++ t)
                     end
                 end
             end
         end) items
  | JObj fields =>
      match lookup "toString" fields with
      | Some _ => inl (TypeError "Cannot convert object to primitive value")
      | None => inr "[object Object]"
      end
  end.

(** ** [String.prototype.trim] on UTF-8 text *)

Definition byte (c : ascii) : N := N_of_ascii c.

(** TAB, LF, VT, FF, CR, SPACE *)
Definition ws1 (c : ascii) : bool :=
  ((9 <=? byte c) && (byte c <=? 13) || (byte c =? 32))%N.

(** U+00A0 *)
Definition ws2 (a b : ascii) : bool :=
  ((byte a =? 194) && (byte b =? 160))%N.

(** U+1680, U+2000..U+200A, U+2028, U+2029, U+202F, U+205F, U+3000, U+FEFF *)
Definition ws3 (a b c : ascii) : bool :=
  (((byte a =? 225) && (byte b =? 154) && (byte c =? 128))
   || ((byte a =? 226) && (byte b =? 128)
       && (((128 <=? byte c) && (byte c <=? 138))
           || (byte c =? 168) || (byte c =? 169) || (byte c =? 175)))
   || ((byte a =? 226) && (byte b =? 129) && (byte c =? 159))
   || ((byte a =? 227) && (byte b =? 128) && (byte c =? 128))
   || ((byte a =? 239) && (byte b =? 187) && (byte c =? 191)))%N.

Fixpoint trimStart (s : string) : string :=
  match s with
  | EmptyString => s
  | String a r =>
      if ws1 a then trimStart r
      else match r with
           | EmptyString => s
           | String b r2 =>
               if ws2 a b then trimStart r2
               else match r2 with
                    | EmptyString => s
                    | String c r3 => if ws3 a b c then trimStart r3 else s
                    end
           end
  end.

Definition all_ws (s : string) : bool := is_empty (trimStart s).

Fixpoint trimEnd (s : string) : string :=
  match s with
  | EmptyString => EmptyString
  | String a r => if all_ws s then EmptyString else String a (trimEnd r)
  end.

Definition trim (s : string) : string := trimEnd (trimStart s).

(** [v.trim()]: only a string has the method. *)
Definition call_trim (what : string) (v : JSValue) : completion string :=
  match v with
  | JStr s => inr (trim s)
  | JUndefined =>
      inl (TypeError "Cannot read properties of undefined (reading 'trim')")
  | JNull => inl (TypeError "Cannot read properties of null (reading 'trim')")
  | _ => inl (TypeError (what ++ ".trim is not a function"))
  end.

(** ** [Map] with [SameValueZero] keys *)

(** Arrays and objects are compared by reference; every key the server
    stores was freshly built by [JSON.parse], so two such keys never meet. *)
Definition same_value_zero (a b : JSValue) : bool :=
  match a, b with
  | JUndefined, JUndefined => true
  | JNull, JNull => true
  | JBool x, JBool y => Bool.eqb x y
  | JNum x, JNum y => (x =? y)
  | JStr x, JStr y => (x =? y)
  | _, _ => false
  end.

Fixpoint map_set {V : Type} (m : list (JSValue * V)) (k : JSValue) (v : V)
  : list (JSValue * V) :=
  match m with
  | [] => [(k, v)]
  | (k', v') :: rest =>
      if same_value_zero k' k then (k', v) :: rest
      else (k', v') :: map_set rest k v
  end.

End JS.
Import JS.

(** ** The fallback pattern

    The regular expression of [runCodexJsonl]: the text thread_id, one or
    more characters that are a double quote or a colon, then a group of 36
    characters out of 0-9, a-f and the hyphen. *)

Module Pattern.

(** the class of double quote and colon *)
Definition is_delim (c : ascii) : bool :=
  (c =? dquote)%char || (c =? ":")%char.

(** the class of 0-9, a-f and hyphen *)
Definition is_idchar (c : ascii) : bool :=
  ((48 <=? byte c) && (byte c <=? 57) || (97 <=? byte c) && (byte c <=? 102)
   || (byte c =? 45))%N.

Fixpoint strip_prefix (p s : string) : option string :=
  match p, s with
  | EmptyString, _ => Some s
  | String a p', String b s' => if (a =? b)%char then strip_prefix p' s' else None
  | String _ _, EmptyString => None
  end.

Fixpoint skip_delims (s : string) : string :=
  match s with
  | String c r => if is_delim c then skip_delims r else s
  | EmptyString => s
  end.

(** [n] characters of the second class at the head of [s] *)
Fixpoint take_idchars (n : nat) (s : string) : option string :=
  match n with
  | O => Some EmptyString
  | S n' =>
      match s with
      | String c r =>
          if is_idchar c then option_map (String c) (take_idchars n' r) else None
      | EmptyString => None
      end
  end.

(** The pattern anchored at the head of [s]; the answer is group 1.  The two
    classes are disjoint, so the greedy [+] never has to give a character
    back. *)
Definition match_here (s : string) : option string :=
  match strip_prefix "thread_id" s with
  | Some (String c r) =>
      if is_delim c then take_idchars 36 (skip_delims r) else None
  | _ => None
  end.

(** [s.match(re)]: the leftmost start that matches wins. *)
Fixpoint thread_id_match (s : string) : option string :=
  match match_here s with
  | Some g => Some g
  | None =>
      match s with
      | String _ r => thread_id_match r
      | EmptyString => None
      end
  end.

End Pattern.

(** ** The world around the server *)

(** What a spawned child does, as far as the promise of [runCodexJsonl] can
    tell: [spawn] itself throws; or an [error] event arrives first; or the
    child closes with an exit code ([None] is the [null] code of a child
    killed by a signal).  [lines] are the lines of standard output delivered
    before the event. *)
Inductive ProcBehaviour : Type :=
| SpawnThrows (e : jserror)
| ProcError (lines : list string) (e : jserror)
| ProcClose (lines : list string) (code : option Z).

Record Env : Type := {
  JSON_parse : string -> completion JSValue;
  process_cwd : string;
  Date_now : Z;
  child : list JSValue -> JSValue -> ProcBehaviour
}.

(** ** Server state *)

(** The object resolved by [runCodexJsonl] *)
Module Outcome.
Record Result : Type := { sessionId : JSValue; output : JSValue }.
End Outcome.
Definition Result : Type := Outcome.Result.

Record SessionRecord : Type := { created : Z; initialPrompt : JSValue }.

Inductive Frame : Type :=
| ResultFrame (id : JSValue) (result : JSValue)
| ErrorFrame (id : JSValue) (code : Z) (msg : string).

Definition frame_id (f : Frame) : JSValue :=
  match f with ResultFrame id _ | ErrorFrame id _ _ => id end.

(** One call of [spawn("codex", argv, {env, cwd})] *)
Record SpawnCall : Type := { argv : list JSValue; spawn_cwd : JSValue }.

(** [sessions] is the registry of the source; [stdout] the frames written by
    [console.log], oldest first; [logged] the errors reported by the
    dispatcher on the diagnostic channel; [spawned] the trace of [spawn]
    calls, oldest first. *)
Record State : Type := {
  sessions : list (JSValue * SessionRecord);
  stdout : list Frame;
  logged : list jserror;
  spawned : list SpawnCall
}.

Definition initial_state : State :=
  {| sessions := []; stdout := []; logged := []; spawned := [] |}.

Definition emit (f : Frame) (st : State) : State :=
  {| sessions := sessions st; stdout := stdout st ++ [f];
     logged := logged st; spawned := spawned st |}.

Definition log_error (e : jserror) (st : State) : State :=
  {| sessions := sessions st; stdout := stdout st;
     logged := logged st ++ [e]; spawned := spawned st |}.

Definition record_spawn (c : SpawnCall) (st : State) : State :=
  {| sessions := sessions st; stdout := stdout st;
     logged := logged st; spawned := spawned st ++ [c] |}.

Definition sessions_set (k : JSValue) (r : SessionRecord) (st : State) : State :=
  {| sessions := map_set (sessions st) k r; stdout := stdout st;
     logged := logged st; spawned := spawned st |}.

(** ** Computations: state threaded through, exceptions and rejections as
    the left summand *)

Definition M (A : Type) : Type := State -> completion A * State.

Definition ret {A : Type} (a : A) : M A := fun st => (inr a, st).

Definition throw {A : Type} (e : jserror) : M A := fun st => (inl e, st).

Definition lift {A : Type} (c : completion A) : M A := fun st => (c, st).

Definition bind {A B : Type} (m : M A) (k : A -> M B) : M B :=
  fun st =>
    match m st with
    | (inl e, st') => (inl e, st')
    | (inr a, st') => k a st'
    end.

Definition try_catch {A : Type} (m : M A) (handler : jserror -> M A) : M A :=
  fun st =>
    match m st with
    | (inl e, st') => handler e st'
    | (inr a, st') => (inr a, st')
    end.

Declare Scope js_scope.
Delimit Scope js_scope with js.
Notation "x <- m ;; k" := (bind m (fun x => k))
  (at level 61, m at next level, right associativity) : js_scope.
Local Open Scope js_scope.

(** ** [runCodexJsonl] *)

Module Jsonl.

(** the three variables of the closure *)
Record Vars : Type := {
  rawOutput : string;
  sessionId : JSValue;
  finalMessage : JSValue
}.

Definition start : Vars :=
  {| rawOutput := ""; sessionId := JNull; finalMessage := JStr "" |}.

(** the body of the [try] block of the line handler *)
Definition on_json (json : JSValue) (v : Vars) : completion Vars :=
  match get json "type" with
  | inl e => inl e
  | inr type =>
      let thread_id := get_opt json "thread_id" in
      let v1 :=
        if strict_eq_str type "thread.started" && truthy thread_id
        then {| rawOutput := rawOutput v; sessionId := thread_id;
                finalMessage := finalMessage v |}
        else v in
      let item := get_opt json "item" in
      inr (if strict_eq_str type "item.completed"
              && strict_eq_str (get_opt item "type") "agent_message"
              && truthy (get_opt item "text")
           then {| rawOutput := rawOutput v1; sessionId := sessionId v1;
                   finalMessage := get_opt item "text" |}
           else v1)
  end.

(** [stdoutRl.on("line", ...)] *)
Definition on_stdout_line (env : Env) (v : Vars) (line : string) : Vars :=
  let v0 := {| rawOutput := rawOutput v ++ line ++ nl;
               sessionId := sessionId v; finalMessage := finalMessage v |} in
  let trimmed := trim line in
  if is_empty trimmed then v0
  else match JSON_parse env trimmed with
       | inl _ => v0
       | inr json =>
           match on_json json v0 with
           | inl _ => v0
           | inr v1 => v1
           end
       end.

Definition read_lines (env : Env) (lines : list string) : Vars :=
  fold_left (on_stdout_line env) lines start.

(** [`${code}`] *)
Definition show_code (code : option Z) : string :=
  match code with
  | None => "null"
  | Some z => NilZero.string_of_int (Z.to_int z)
  end.

(** the session identifier after the fallback scan of the [close] handler *)
Definition with_fallback (v : Vars) : JSValue :=
  if negb (truthy (sessionId v)) then
    match Pattern.thread_id_match (rawOutput v) with
    | Some g => JStr g
    | None => sessionId v
    end
  else sessionId v.

(** [proc.on("close", ...)] *)
Definition on_close (label : string) (v : Vars) (code : option Z)
  : completion Result :=
  match code with
  | Some 0%Z =>
      let sid := with_fallback v in
      if negb (truthy sid) then
        inl (Error ("Could not extract session ID from " ++ label ++ " output"))
      else
        inr {| Outcome.sessionId := sid;
               Outcome.output := if truthy (finalMessage v) then finalMessage v
                                 else JStr (rawOutput v) |}
  | _ => inl (Error (label ++ " exited with code " ++ show_code code))
  end.

End Jsonl.

(** how the promise is settled by what the child does *)
Definition settle (env : Env) (label : string) (b : ProcBehaviour)
  : completion Result :=
  match b with
  | SpawnThrows e => inl e
  | ProcError _ e => inl e
  | ProcClose lines code => Jsonl.on_close label (Jsonl.read_lines env lines) code
  end.

(** [cwd || process.cwd()] *)
Definition spawn_dir (env : Env) (cwd : JSValue) : JSValue :=
  if truthy cwd then cwd else JStr (process_cwd env).

Definition runCodexJsonl (env : Env) (cliArgs : list JSValue) (cwd : JSValue)
    (label : string) : M Result :=
  fun st =>
    let dir := spawn_dir env cwd in
    (settle env label (child env cliArgs dir),
     record_spawn {| argv := cliArgs; spawn_cwd := dir |} st).

(** ** The command builders *)

Definition runCodexStart (env : Env) (args : JSValue) : M Result :=
  prompt <- lift (get args "prompt") ;;
  let cwd := get_opt args "cwd" in
  let cliArgs :=
    ([JStr "exec"; prompt; JStr "--sandbox"; JStr "read-only"]
       ++ (if truthy cwd then [JStr "-C"; cwd] else [])
       ++ [JStr "--json"])%list in
  result <- runCodexJsonl env cliArgs cwd "Codex" ;;
  (fun st =>
     (inr result,
      sessions_set (Outcome.sessionId result)
        {| created := Date_now env; initialPrompt := prompt |} st)).

Definition runCodexResume (env : Env) (sessionId prompt : JSValue) : M Result :=
  let cliArgs := [JStr "exec"; JStr "--json"; JStr "resume"; sessionId; prompt] in
  runCodexJsonl env cliArgs JUndefined "Codex resume".

(** the [switch] of [runCodexReview]: the options that follow the [review]
    token *)
Definition review_options (args mode : JSValue) : completion (list JSValue) :=
  if strict_eq_str mode "uncommitted" then inr [JStr "--uncommitted"]
  else if strict_eq_str mode "base" then
    let base := get_opt args "base" in
    if negb (truthy base) then inl (Error "mode=base requires base")
    else match ToString base with
         | inl e => inl e
         | inr s => inr [JStr "--base"; JStr s]
         end
  else if strict_eq_str mode "commit" then
    let commit := get_opt args "commit" in
    if negb (truthy commit) then inl (Error "mode=commit requires commit")
    else match ToString commit with
         | inl e => inl e
         | inr s => inr [JStr "--commit"; JStr s]
         end
  else if strict_eq_str mode "custom" then
    let prompt := get_opt args "prompt" in
    if negb (truthy prompt) then inl (Error "mode=custom requires prompt")
    else match call_trim "args.prompt" prompt with
         | inl e => inl e
         | inr t =>
             if is_empty t then inl (Error "mode=custom requires prompt")
             else inr [JStr t]
         end
  else match ToString mode with
       | inl e => inl e
       | inr s => inl (Error ("Unknown review mode: " ++ s))
       end.

Definition runCodexReview (env : Env) (args : JSValue) : M Result :=
  if negb (truthy args) || negb (truthy (get_opt args "mode")) then
    throw (Error "codex-review requires mode")
  else
    let cwd := get_opt args "cwd" in
    let head := ([JStr "exec"] ++ (if truthy cwd then [JStr "-C"; cwd] else [])
                   ++ [JStr "--json"; JStr "review"])%list in
    options <- lift (review_options args (get_opt args "mode")) ;;
    runCodexJsonl env (head ++ options)%list cwd "Codex review".

(** ** The dispatcher *)

Definition sendResponse (id result : JSValue) : M unit :=
  fun st => (inr tt, emit (ResultFrame id result) st).

Definition sendError (id : JSValue) (code : Z) (msg : string) : M unit :=
  fun st => (inr tt, emit (ErrorFrame id code msg) st).

Definition initialize_result : JSValue :=
  JObj
    [("protocolVersion", JStr "2024-11-05");
     ("capabilities", JObj [("tools", JObj []); ("resources", JObj [])]);
     ("serverInfo",
      JObj [("name", JStr "codex-cli-wrapper"); ("version", JStr "1.1.1")]);
     ("instructions",
      JStr "IMPORTANT: Read the `collaborating-with-codex` skill before using any Codex tools. Codex is an external AI agent for second opinions on complex decisions. Form your own analysis first to avoid anchoring bias, then use Codex for brainstorming, plan validation, or code review. Sessions run in read-only sandbox mode.")].

Definition handleInitialize (message : JSValue) : M unit :=
  sendResponse (get_opt message "id") initialize_result.

Definition string_property (description : string) : JSValue :=
  JObj [("type", JStr "string"); ("description", JStr description)].

Definition tool (name description : string)
    (properties : list (string * JSValue)) (required : list string) : JSValue :=
  JObj
    [("name", JStr name);
     ("description", JStr description);
     ("inputSchema",
      JObj [("type", JStr "object");
            ("properties", JObj properties);
            ("required", JArr (map JStr required))])].

Definition tools : list JSValue :=
  [tool "codex"
     "Start a new Codex session. Use like a sub-agent: be specific in prompts, provide context. Sessions can be resumed with codex-reply."
     [("prompt", string_property "The prompt for Codex");
      ("cwd", string_property "Working directory")]
     ["prompt"];
   tool "codex-reply"
     "Continue an existing Codex session. Use for multi-turn discussions where prior context matters (e.g., follow-up questions, asking for review after brainstorming)."
     [("sessionId",
       string_property "Session ID from a previous codex or codex-reply call");
      ("prompt", string_property "Follow-up prompt")]
     ["sessionId"; "prompt"];
   tool "codex-review"
     "Run a Codex code review. In review mode, Codex uses a specialized review prompt. For reviews needing prior conversation context, use codex-reply instead."
     [("mode",
       JObj [("type", JStr "string");
             ("enum", JArr [JStr "uncommitted"; JStr "base"; JStr "commit";
                            JStr "custom"]);
             ("description",
              JStr "REQUIRED. One of: `uncommitted` (review staged/unstaged/untracked changes), `base` (PR-style diff — also set `base`), `commit` (single commit — also set `commit`), `custom` (free-form — also set `prompt`).")]);
      ("base",
       string_property
         (dq "Branch name to diff against. Required when mode=`base`. Example: 'main'."));
      ("commit",
       string_property "Commit SHA to review. Required when mode=`commit`.");
      ("prompt",
       string_property "Review instructions. Required when mode=`custom`.");
      ("cwd",
       string_property
         "Working directory (repo root). If omitted, uses the server process CWD.")]
     ["mode"]].

Definition handleToolsList (message : JSValue) : M unit :=
  sendResponse (get_opt message "id") (JObj [("tools", JArr tools)]).

(** [const { name, arguments: args } = message.params] *)
Definition destructure_params (params : JSValue) : completion (JSValue * JSValue) :=
  match params with
  | JUndefined =>
      inl (TypeError
             "Cannot destructure property 'name' of 'message.params' as it is undefined.")
  | JNull =>
      inl (TypeError
             "Cannot destructure property 'name' of 'message.params' as it is null.")
  | _ => inr (get_opt params "name", get_opt params "arguments")
  end.

(** the two-part payload of a successful tool call *)
Definition tool_content (result : Result) : completion JSValue :=
  match ToString (Outcome.sessionId result) with
  | inl e => inl e
  | inr sid =>
      inr (JObj
             [("content",
               JArr [JObj [("type", JStr "text");
                           ("text", Outcome.output result)];
                     JObj [("type", JStr "text");
                           ("text", JStr (nl ++ "[SESSION_ID: " ++ sid ++ "]"))]])])
  end.

Definition respond (message : JSValue) (result : Result) : M unit :=
  content <- lift (tool_content result) ;;
  sendResponse (get_opt message "id") content.

Definition handleToolCall (env : Env) (message : JSValue) : M unit :=
  p <- lift (destructure_params (get_opt message "params")) ;;
  let '(name, args) := p in
  try_catch
    (if strict_eq_str name "codex" then
       result <- runCodexStart env args ;;
       respond message result
     else if strict_eq_str name "codex-reply" then
       sessionId <- lift (get args "sessionId") ;;
       prompt <- lift (get args "prompt") ;;
       result <- runCodexResume env sessionId prompt ;;
       respond message result
     else if strict_eq_str name "codex-review" then
       result <- runCodexReview env args ;;
       respond message result
     else
       text <- lift (ToString name) ;;
       sendError (get_opt message "id") (-32602) ("Unknown tool: " ++ text))
    (fun e => sendError (get_opt message "id") (-32603) (message_of e)).

(** the [try] block of [rl.on("line", ...)] *)
Definition route (env : Env) (line : string) : M unit :=
  message <- lift (JSON_parse env line) ;;
  method <- lift (get message "method") ;;
  if strict_eq_str method "initialize" then handleInitialize message
  else if strict_eq_str method "initialized" then ret tt
  else if strict_eq_str method "tools/list" then handleToolsList message
  else if strict_eq_str method "tools/call" then handleToolCall env message
  else sendError (get_opt message "id") (-32601) "Method not found".

(** [rl.on("line", ...)]: whatever escapes the [try] is reported on the
    diagnostic channel. *)
Definition on_line (env : Env) (line : string) (st : State) : State :=
  match route env line st with
  | (inl e, st') => log_error e st'
  | (inr _, st') => st'
  end.

(** A run of the server: the inbound lines in arrival order, each with the
    world it meets. *)
Fixpoint run (inputs : list (Env * string)) (st : State) : State :=
  match inputs with
  | [] => st
  | (env, line) :: rest => run rest (on_line env line st)
  end.

(** ** Vocabulary of the specification *)

Module Spec.

Fixpoint all (p : ascii -> bool) (s : string) : bool :=
  match s with
  | EmptyString => true
  | String c r => p c && all p r
  end.

(** The pattern occurs in [s] right after [pre], with [g] as its group:
    thread_id, a non-empty run of delimiters, 36 identifier characters. *)
Definition occurs_at (pre g s : string) : Prop :=
  exists ds post,
    s = pre ++ "thread_id" ++ ds ++ g ++ post
    /\ ds <> EmptyString
    /\ all Pattern.is_delim ds = true
    /\ String.length g = 36
    /\ all Pattern.is_idchar g = true.

(** [g] is the group of the leftmost occurrence *)
Definition first_match (s g : string) : Prop :=
  exists pre,
    occurs_at pre g s
    /\ forall pre' g', occurs_at pre' g' s -> String.length pre <= String.length pre'.

Definition is_hex (c : ascii) : bool :=
  ((48 <=? byte c) && (byte c <=? 57) || (97 <=? byte c) && (byte c <=? 102))%N.

Definition is_hyphen (c : ascii) : bool := (c =? "-")%char.

Fixpoint has_shape (shape : list (ascii -> bool)) (s : string) : bool :=
  match shape, s with
  | [], EmptyString => true
  | p :: shape', String c r => p c && has_shape shape' r
  | _, _ => false
  end.

(** 8-4-4-4-12 lowercase hexadecimal digits *)
Definition uuid_shape : list (ascii -> bool) :=
  (repeat is_hex 8 ++ [is_hyphen] ++ repeat is_hex 4 ++ [is_hyphen]
   ++ repeat is_hex 4 ++ [is_hyphen] ++ repeat is_hex 4 ++ [is_hyphen]
   ++ repeat is_hex 12)%list.

Definition is_uuid (s : string) : bool := has_shape uuid_shape s.

(** every line followed by a newline, in order *)
Definition transcript (lines : list string) : string :=
  fold_right (fun line acc => line ++ nl ++ acc) "" lines.

(** The agent-message text a line carries, if it is a completed-item event
    of an agent message with a non-empty text. *)
Definition agent_message_text (env : Env) (line : string) : option JSValue :=
  if is_empty (trim line) then None
  else match JSON_parse env (trim line) with
       | inl _ => None
       | inr json =>
           let item := get_opt json "item" in
           if strict_eq_str (get_opt json "type") "item.completed"
              && strict_eq_str (get_opt item "type") "agent_message"
              && truthy (get_opt item "text")
           then Some (get_opt item "text")
           else None
       end.

Fixpoint last_some {A : Type} (xs : list (option A)) : option A :=
  match xs with
  | [] => None
  | x :: rest =>
      match last_some rest with
      | Some y => Some y
      | None => x
      end
  end.

Definition display_text (env : Env) (lines : list string) : JSValue :=
  match last_some (map (agent_message_text env) lines) with
  | Some text => text
  | None => JStr (transcript lines)
  end.

(** The identifier a line carries, if it is a thread-started event with a
    non-empty identifier. *)
Definition thread_started_id (env : Env) (line : string) : option JSValue :=
  if is_empty (trim line) then None
  else match JSON_parse env (trim line) with
       | inl _ => None
       | inr json =>
           if strict_eq_str (get_opt json "type") "thread.started"
              && truthy (get_opt json "thread_id")
           then Some (get_opt json "thread_id")
           else None
       end.

(** the session identifier extracted from a finished stream: the structured
    capture, else the fallback scan; [JNull] when neither finds one *)
Definition extracted_id (env : Env) (lines : list string) : JSValue :=
  Jsonl.with_fallback (Jsonl.read_lines env lines).

(** the literal token of the records: thread_id, double quote, colon, double
    quote *)
Definition quoted_key : string := dq "thread_id':'".

Definition not_t (c : ascii) : bool := negb (c =? "t")%char.

(** the captured identifier is [null] until a non-empty one is captured *)
Definition id_invariant (v : Jsonl.Vars) : Prop :=
  Jsonl.sessionId v = JNull \/ truthy (Jsonl.sessionId v) = true.

(** [a] immediately followed by [b] *)
Definition adjacent {A : Type} (a b : A) (l : list A) : Prop :=
  exists l1 l2, l = (l1 ++ a :: b :: l2)%list.

Definition keys {V : Type} (m : list (JSValue * V)) : list JSValue := map fst m.

(** The arguments of a [tools/call] request for the tool [codex], if [line]
    is one. *)
Definition start_request (env : Env) (line : string) : option JSValue :=
  match JSON_parse env line with
  | inl _ => None
  | inr message =>
      if strict_eq_str (get_opt message "method") "tools/call" then
        match destructure_params (get_opt message "params") with
        | inr (name, args) => if strict_eq_str name "codex" then Some args else None
        | inl _ => None
        end
      else None
  end.

(** The outcome of the start operation a line asks for, when it completed
    successfully. *)
Definition started (env : Env) (line : string) : option Result :=
  match start_request env line with
  | Some args =>
      match fst (runCodexStart env args initial_state) with
      | inr result => Some result
      | inl _ => None
      end
  | None => None
  end.

(** the record a successful start stores *)
Definition record_of (env : Env) (line : string) : SessionRecord :=
  {| created := Date_now env;
     initialPrompt := match start_request env line with
                      | Some args => get_opt args "prompt"
                      | None => JUndefined
                      end |}.

(** white space only, as [trim] sees it *)
Inductive blank : string -> Prop :=
| blank_empty : blank ""
| blank_1 a s : ws1 a = true -> blank s -> blank (String a s)
| blank_2 a b s : ws2 a b = true -> blank s -> blank (String a (String b s))
| blank_3 a b c s :
    ws3 a b c = true -> blank s -> blank (String a (String b (String c s))).

(** [m] answers the request [id]: it either throws without writing a frame,
    or returns after writing exactly one frame that carries [id]. *)
Definition answers (id : JSValue) (m : M unit) : Prop :=
  forall st,
    match m st with
    | (inl _, st') => stdout st' = stdout st
    | (inr _, st') =>
        exists frame, stdout st' = (stdout st ++ [frame])%list /\ frame_id frame = id
    end.

(** [m] writes no frame *)
Definition silent {A : Type} (m : M A) : Prop :=
  forall st, stdout (snd (m st)) = stdout st.

(** [m] leaves the registry alone *)
Definition keeps_sessions {A : Type} (m : M A) : Prop :=
  forall st, sessions (snd (m st)) = sessions st.

Definition resolved {A : Type} (c : completion A) : Prop := exists a, c = inr a.

End Spec.

(** ** Sample worlds *)

Module Sample.

(** [JSON.parse] on the texts of [table]; any other text is a syntax error. *)
Definition parse_table (table : list (string * JSValue)) (text : string)
  : completion JSValue :=
  match find (fun entry => fst entry =? text) table with
  | Some entry => inr (snd entry)
  | None => inl (SyntaxError "Unexpected token")
  end.

Definition uuid : string := "0199a5ee-1c2d-7f30-8a4b-5e6f7a8b9c0d".

Definition thread_started_line : string :=
  dq "{'type':'thread.started','thread_id':'0199a5ee-1c2d-7f30-8a4b-5e6f7a8b9c0d'}".

Definition thread_started : JSValue :=
  JObj [("type", JStr "thread.started"); ("thread_id", JStr uuid)].

Definition agent_message_line (text : string) : string :=
  dq "{'type':'item.completed','item':{'type':'agent_message','text':'" ++ text ++ dq "'}}".

Definition agent_message (text : string) : JSValue :=
  JObj [("type", JStr "item.completed");
        ("item", JObj [("type", JStr "agent_message"); ("text", JStr text)])].

(** a line that is not JSON but carries the identifier *)
Definition loose_line : string :=
  dq "session thread_id':'0199a5ee-1c2d-7f30-8a4b-5e6f7a8b9c0d' ready".

Definition request_line (id method : string) (params : string) : string :=
  dq "{'jsonrpc':'2.0','id':" ++ id ++ dq ",'method':'" ++ method ++ dq "'"
    ++ params ++ "}".

Definition request (id : string) (method : string) (params : list (string * JSValue))
  : JSValue :=
  JObj ([("jsonrpc", JStr "2.0"); ("id", JNum id); ("method", JStr method)]
          ++ params)%list.

Definition call_params (name args : string) : string :=
  dq ",'params':{'name':'" ++ name ++ dq "','arguments':" ++ args ++ "}".

Definition call (name : string) (args : list (string * JSValue))
  : list (string * JSValue) :=
  [("params", JObj [("name", JStr name); ("arguments", JObj args)])].

Definition table : list (string * JSValue) :=
  [(thread_started_line, thread_started);
   (agent_message_line "first", agent_message "first");
   (agent_message_line "second", agent_message "second");
   (request_line "7" "initialized" "", request "7" "initialized" []);
   (request_line "8" "tools/call" "", request "8" "tools/call" []);
   (request_line "1" "tools/call" (call_params "codex-reply" "{}"),
    request "1" "tools/call" (call "codex-reply" []));
   (request_line "2" "tools/call"
      (call_params "codex-reply" (dq "{'sessionId':'','prompt':''}")),
    request "2" "tools/call"
      (call "codex-reply" [("sessionId", JStr ""); ("prompt", JStr "")]));
   (request_line "3" "tools/call" (call_params "codex" "{}"),
    request "3" "tools/call" (call "codex" []));
   (request_line "4" "tools/call" (call_params "codex" (dq "{'prompt':'hello'}")),
    request "4" "tools/call" (call "codex" [("prompt", JStr "hello")]));
   (request_line "5" "tools/call"
      (call_params "codex-review" (dq "{'mode':'base'}")),
    request "5" "tools/call" (call "codex-review" [("mode", JStr "base")]))].

(** a world whose child always behaves as [b] *)
Definition world (b : ProcBehaviour) : Env :=
  {| JSON_parse := parse_table table;
     process_cwd := "/srv/app";
     Date_now := 1700000000000;
     child := fun _ _ => b |}.

Definition healthy : ProcBehaviour :=
  ProcClose [thread_started_line; agent_message_line "first"] (Some 0%Z).

End Sample.

(** ** Further vocabulary: effects, the tool catalogue, the registry *)

Module Effects.

(** What [m] returns, writes, logs and spawns does not depend on the state
    it starts from: the frames, log entries and spawn calls it adds are
    those it adds to the initial state. *)
Definition oblivious {A : Type} (m : M A) : Prop :=
  forall st,
    fst (m st) = fst (m initial_state)
    /\ stdout (snd (m st)) = (stdout st ++ stdout (snd (m initial_state)))%list
    /\ logged (snd (m st)) = (logged st ++ logged (snd (m initial_state)))%list
    /\ spawned (snd (m st)) = (spawned st ++ spawned (snd (m initial_state)))%list.




End Effects.

Module Catalogue.

Definition items (v : JSValue) : list JSValue :=
  match v with JArr xs => xs | _ => [] end.

(** the names listed by [tools/list] *)
Definition advertised : list JSValue := map (fun t => get_opt t "name") tools.

(** the values listed for [mode] by the schemas of [tools/list] *)
Definition mode_enum : list JSValue :=
  flat_map
    (fun t =>
       items (get_opt (get_opt (get_opt (get_opt t "inputSchema") "properties")
                         "mode") "enum"))
    tools.

(** The pipeline [handleToolCall] runs for a tool name, if it knows the
    name. *)
Definition tool_pipeline (env : Env) (name args : JSValue) : option (M Result) :=
  if strict_eq_str name "codex" then Some (runCodexStart env args)
  else if strict_eq_str name "codex-reply" then
    Some (sessionId <- lift (get args "sessionId") ;;
          prompt <- lift (get args "prompt") ;;
          runCodexResume env sessionId prompt)
  else if strict_eq_str name "codex-review" then Some (runCodexReview env args)
  else None.

(** the payload of a successful tool call: the display text, then the
    session annotation *)
Definition content (output : JSValue) (sid : string) : JSValue :=
  JObj
    [("content",
      JArr [JObj [("type", JStr "text"); ("text", output)];
            JObj [("type", JStr "text");
                  ("text", JStr (nl ++ "[SESSION_ID: " ++ sid ++ "]"))]])].

End Catalogue.

Module Registry.

Definition is_primitive (v : JSValue) : bool :=
  match v with JArr _ | JObj _ => false | _ => true end.

(** no two entries share a key, as far as [SameValueZero] can tell *)
Definition distinct_keys {V : Type} (m : list (JSValue * V)) : Prop :=
  NoDup (filter is_primitive (Spec.keys m)).

End Registry.

(** a line of standard output that is one of the two events the extractor
    looks for *)
Definition carries_event (env : Env) (line : string) : bool :=
  match Spec.thread_started_id env line, Spec.agent_message_text env line with
  | None, None => false
  | _, _ => true
  end.


(** * Properties *)

(** ** The fallback pattern finds the leftmost occurrence *)

Section PatternFacts.
Import Pattern Spec.

Lemma append_assoc (a b c : string) : (a ++ b) ++ c = a ++ (b ++ c).
Proof. induction a as [|x a IH]; simpl; [reflexivity | now rewrite IH]. Qed.

Lemma append_empty_r (a : string) : a ++ "" = a.
Proof. induction a as [|x a IH]; simpl; [reflexivity | now rewrite IH]. Qed.

Lemma idchar_not_delim c : is_idchar c = true -> is_delim c = false.
Proof.
  unfold is_idchar, is_delim, dquote, byte.
  destruct c as [[] [] [] [] [] [] [] []]; vm_compute; congruence.
Qed.

Lemma strip_prefix_spec p s r : strip_prefix p s = Some r <-> s = p ++ r.
Proof.
  revert s; induction p as [|a p IH]; intros s; simpl.
  - split; congruence.
  - destruct s as [|b s].
    + split; discriminate.
    + destruct (Ascii.eqb_spec a b) as [->|Hne].
      * rewrite IH. split; [now intros -> | congruence].
      * split; [discriminate | congruence].
Qed.

Lemma skip_delims_split s :
  exists ds, s = ds ++ skip_delims s /\ all is_delim ds = true.
Proof.
  induction s as [|c s [ds [E A]]]; simpl.
  - now exists "".
  - destruct (is_delim c) eqn:D.
    + exists (String c ds); simpl. rewrite D, A. now rewrite <- E.
    + now exists "".
Qed.

Lemma skip_delims_app ds g rest :
  all is_delim ds = true -> all is_idchar g = true -> g <> "" ->
  skip_delims (ds ++ g ++ rest) = g ++ rest.
Proof.
  intros A G N. induction ds as [|c ds IH]; simpl in *.
  - destruct g as [|x g]; [now contradiction N|]. simpl in *.
    apply andb_prop in G as [G _]. now rewrite (idchar_not_delim _ G).
  - apply andb_prop in A as [D A]. rewrite D. auto.
Qed.

Lemma take_idchars_app n g rest :
  String.length g = n -> all is_idchar g = true ->
  take_idchars n (g ++ rest) = Some g.
Proof.
  revert g; induction n as [|n IH]; intros [|c g] L A; simpl in *; try discriminate.
  - reflexivity.
  - apply andb_prop in A as [C A]. rewrite C, IH; auto.
Qed.

Lemma take_idchars_spec n s g :
  take_idchars n s = Some g ->
  String.length g = n /\ all is_idchar g = true /\ exists rest, s = g ++ rest.
Proof.
  revert s g; induction n as [|n IH]; intros s g; simpl.
  - intros [= <-]. repeat split. now exists s.
  - destruct s as [|c s]; [discriminate|].
    destruct (is_idchar c) eqn:C; [|discriminate].
    destruct (take_idchars n s) as [g'|] eqn:T; [|discriminate].
    intros [= <-]. destruct (IH _ _ T) as (L & A & rest & ->).
    simpl. rewrite L, C, A. repeat split. now exists rest.
Qed.

(** the anchored matcher finds exactly the occurrences that start at the head *)
Lemma match_here_spec s g : match_here s = Some g <-> occurs_at "" g s.
Proof.
  unfold match_here, occurs_at. split.
  - destruct (strip_prefix "thread_id" s) as [[|c r]|] eqn:P; try discriminate.
    destruct (is_delim c) eqn:D; [|discriminate].
    intros T. apply strip_prefix_spec in P.
    destruct (take_idchars_spec _ _ _ T) as (L & A & rest & E).
    destruct (skip_delims_split r) as (ds & Er & Ads).
    exists (String c ds), rest. repeat split; auto.
    + rewrite P. change ("" ++ ?x) with x. f_equal. simpl.
      rewrite Er at 1. now rewrite E.
    + discriminate.
    + simpl. now rewrite D, Ads.
  - intros (ds & post & E & N & Ads & L & A).
    destruct ds as [|c ds]; [now contradiction N|]. simpl in Ads.
    apply andb_prop in Ads as [D Ads].
    assert (P : strip_prefix "thread_id" s = Some (String c (ds ++ g ++ post))).
    { apply strip_prefix_spec. exact E. }
    rewrite P, D. rewrite skip_delims_app; auto.
    + now apply take_idchars_app.
    + intros ->. discriminate.
Qed.

Lemma occurs_at_cons c pre g s :
  occurs_at (String c pre) g (String c s) <-> occurs_at pre g s.
Proof.
  unfold occurs_at; split; intros (ds & post & E & R); exists ds, post; split; auto.
  - injection E as E. exact E.
  - rewrite E. reflexivity.
Qed.

Lemma occurs_at_head pre g s :
  occurs_at pre g s ->
  match pre with
  | EmptyString => True
  | String c pre' => exists s', s = String c s' /\ occurs_at pre' g s'
  end.
Proof.
  destruct pre as [|c pre']; [trivial|].
  intros (ds & post & E & R).
  eexists; split; [exact E|]. exists ds, post; auto.
Qed.

Lemma thread_id_match_Some s g :
  thread_id_match s = Some g <-> first_match s g.
Proof.
  induction s as [|c s IH] in g |- *.
  - simpl. destruct (match_here "") as [g0|] eqn:M.
    + vm_compute in M. discriminate.
    + split; [discriminate|].
      intros (pre & (ds & post & E & _) & _).
      destruct pre; simpl in E; discriminate.
  - simpl. destruct (match_here (String c s)) as [g0|] eqn:M.
    + split.
      * intros [= <-]. exists "". split; [now apply match_here_spec | simpl; lia].
      * intros (pre & O & Least).
        apply match_here_spec in M. specialize (Least _ _ M). simpl in Least.
        destruct pre; simpl in Least; [|lia].
        apply match_here_spec in O, M. congruence.
    + rewrite IH. split.
      * intros (pre & O & Least). exists (String c pre). split.
        { now apply occurs_at_cons. }
        intros [|c' pre'] g' O'.
        { apply match_here_spec in O'. congruence. }
        destruct (occurs_at_head _ _ _ O') as (s' & [= <- <-] & O'').
        simpl. specialize (Least _ _ O''). lia.
      * intros ([|c' pre] & O & Least).
        { apply match_here_spec in O. congruence. }
        destruct (occurs_at_head _ _ _ O) as (s' & [= <- <-] & O'').
        exists pre. split; auto.
        intros pre' g' O'. apply (occurs_at_cons c) in O'.
        specialize (Least _ _ O'). simpl in Least. lia.
Qed.

Lemma thread_id_match_None s :
  thread_id_match s = None <-> forall pre g, ~ occurs_at pre g s.
Proof.
  induction s as [|c s IH].
  - simpl. split; [|reflexivity].
    intros _ pre g (ds & post & E & _). destruct pre; simpl in E; discriminate.
  - simpl. destruct (match_here (String c s)) as [g0|] eqn:M.
    + split; [discriminate|]. intros H. apply match_here_spec in M.
      now apply H in M.
    + rewrite IH. split.
      * intros H [|c' pre] g O.
        { apply match_here_spec in O. congruence. }
        destruct (occurs_at_head _ _ _ O) as (s' & [= <- <-] & O'').
        now apply H in O''.
      * intros H pre g O. apply (occurs_at_cons c) in O. now apply H in O.
Qed.

Lemma all_app p a b : all p (a ++ b) = all p a && all p b.
Proof. induction a as [|c a IH]; simpl; [reflexivity | now rewrite IH, andb_assoc]. Qed.

Lemma all_impl (p q : ascii -> bool) s :
  (forall c, p c = true -> q c = true) -> all p s = true -> all q s = true.
Proof.
  intros I. induction s as [|c s IH]; simpl; [reflexivity|].
  intros H. apply andb_prop in H as [H1 H2]. now rewrite (I _ H1), IH.
Qed.

Lemma delim_not_t c : is_delim c = true -> not_t c = true.
Proof.
  unfold is_delim, not_t, dquote.
  destruct c as [[] [] [] [] [] [] [] []]; vm_compute; congruence.
Qed.

Lemma idchar_not_t c : is_idchar c = true -> not_t c = true.
Proof.
  unfold is_idchar, not_t, byte.
  destruct c as [[] [] [] [] [] [] [] []]; vm_compute; congruence.
Qed.

Lemma prefix_before_t x r w post :
  x ++ String "t" r = w ++ post -> all not_t w = true -> exists post', x = w ++ post'.
Proof.
  revert x; induction w as [|a w IH]; intros x E A.
  - now exists x.
  - simpl in A. apply andb_prop in A as [Ha A].
    destruct x as [|b x]; simpl in E; injection E as <- E.
    + discriminate.
    + destruct (IH _ E A) as [post' ->]. now exists post'.
Qed.

Lemma match_here_before_t x r g :
  x <> "" -> match_here (x ++ String "t" r) = Some g -> match_here x = Some g.
Proof.
  intros N M. apply match_here_spec in M. apply match_here_spec.
  destruct M as (ds & post & E & Nds & Ads & L & A).
  destruct x as [|c x]; [now contradiction N|].
  injection E as -> E.
  destruct (prefix_before_t x r ("hread_id" ++ ds ++ g) post) as [post' ->].
  - rewrite E. now rewrite !append_assoc.
  - rewrite !all_app. rewrite (all_impl _ _ _ delim_not_t Ads).
    now rewrite (all_impl _ _ _ idchar_not_t A).
  - exists ds, post'. repeat split; auto.
    change ("" ++ ?y) with y. simpl. now rewrite !append_assoc.
Qed.

Lemma thread_id_match_skip pre r :
  thread_id_match pre = None ->
  thread_id_match (pre ++ String "t" r) = thread_id_match (String "t" r).
Proof.
  induction pre as [|c pre IH]; [reflexivity|].
  simpl. destruct (match_here (String c pre)) eqn:M; [discriminate|].
  intros T. destruct (match_here (String c (pre ++ String "t" r))) eqn:M'.
  - apply (match_here_before_t (String c pre)) in M'; congruence.
  - auto.
Qed.

Lemma has_shape_idchars shape s :
  Forall (fun p => forall c, p c = true -> is_idchar c = true) shape ->
  has_shape shape s = true ->
  String.length s = List.length shape /\ all is_idchar s = true.
Proof.
  intros F; revert s; induction F as [|p shape Hp F IH]; intros [|c s]; simpl;
    try discriminate; auto.
  intros H. apply andb_prop in H as [H1 H2]. destruct (IH _ H2) as [L A].
  now rewrite L, A, (Hp _ H1).
Qed.

Lemma uuid_idchars u :
  is_uuid u = true -> String.length u = 36 /\ all is_idchar u = true.
Proof.
  intros H. apply has_shape_idchars in H; [exact H|].
  assert (Hx : forall c, is_hex c = true -> is_idchar c = true).
  { intros c. unfold is_hex, is_idchar. intros ->. reflexivity. }
  assert (Hy : forall c, is_hyphen c = true -> is_idchar c = true).
  { intros c E. apply Ascii.eqb_eq in E. now subst. }
  unfold uuid_shape. simpl. repeat constructor; assumption.
Qed.

Lemma thread_id_match_quoted pre u post :
  is_uuid u = true -> thread_id_match pre = None ->
  thread_id_match (pre ++ quoted_key ++ u ++ post) = Some u.
Proof.
  intros U P. destruct (uuid_idchars _ U) as [L A].
  change (quoted_key ++ u ++ post)
    with (String "t" ("hread_id" ++ dq "':'" ++ u ++ post)).
  rewrite thread_id_match_skip by exact P.
  cbn [thread_id_match].
  replace (match_here (String "t" ("hread_id" ++ dq "':'" ++ u ++ post)))
    with (Some u); [reflexivity|].
  symmetry. apply match_here_spec. exists (dq "':'"), post. repeat split; auto.
  discriminate.
Qed.
End PatternFacts.

(** ** The event extractor *)

Section ExtractorFacts.
Import Jsonl Spec.
Variable env : Env.

Lemma on_json_rawOutput json v v' :
  on_json json v = inr v' -> rawOutput v' = rawOutput v.
Proof.
  unfold on_json. destruct (get json "type") as [e|type]; [discriminate|].
  intros [= <-].
  repeat match goal with |- context [if ?b then _ else _] => destruct b end;
    reflexivity.
Qed.

Lemma step_rawOutput v line :
  rawOutput (on_stdout_line env v line) = rawOutput v ++ line ++ nl.
Proof.
  unfold on_stdout_line.
  destruct (is_empty (trim line)); [reflexivity|].
  destruct (JSON_parse env (trim line)) as [e|json]; [reflexivity|].
  destruct (on_json json _) as [e|v'] eqn:J; [reflexivity|].
  now rewrite (on_json_rawOutput _ _ _ J).
Qed.

Lemma step_finalMessage v line :
  finalMessage (on_stdout_line env v line)
  = match agent_message_text env line with
    | Some text => text
    | None => finalMessage v
    end.
Proof.
  unfold on_stdout_line, agent_message_text.
  destruct (is_empty (trim line)); [reflexivity|].
  destruct (JSON_parse env (trim line)) as [e|json]; [reflexivity|].
  unfold on_json.
  change (get_opt json "type")
    with (match get json "type" with inr x => x | inl _ => JUndefined end).
  destruct (get json "type") as [e|type] eqn:G.
  - reflexivity.
  - destruct (_ && _ && truthy (get_opt (get_opt json "item") "text")); simpl.
    + reflexivity.
    + now destruct (strict_eq_str type "thread.started" && _).
Qed.

Lemma step_sessionId v line :
  id_invariant v -> id_invariant (on_stdout_line env v line).
Proof.
  unfold on_stdout_line, id_invariant. intros I.
  destruct (is_empty (trim line)); [exact I|].
  destruct (JSON_parse env (trim line)) as [e|json]; [exact I|].
  unfold on_json. destruct (get json "type") as [e|type]; [exact I|].
  destruct (strict_eq_str type "thread.started") eqn:T; simpl.
  - destruct (truthy (get_opt json "thread_id")) eqn:Y; simpl;
      destruct (_ && _ && _); simpl; auto.
  - destruct (_ && _ && _); simpl; auto.
Qed.

Lemma fold_rawOutput lines v :
  rawOutput (fold_left (on_stdout_line env) lines v)
  = rawOutput v ++ transcript lines.
Proof.
  revert v; induction lines as [|l lines IH]; intros v; simpl.
  - now rewrite append_empty_r.
  - rewrite IH, step_rawOutput. now rewrite !append_assoc.
Qed.

Lemma fold_finalMessage lines v :
  finalMessage (fold_left (on_stdout_line env) lines v)
  = match last_some (map (agent_message_text env) lines) with
    | Some text => text
    | None => finalMessage v
    end.
Proof.
  revert v; induction lines as [|l lines IH]; intros v; simpl; [reflexivity|].
  rewrite IH, step_finalMessage.
  now destruct (last_some _), (agent_message_text env l).
Qed.

Lemma fold_sessionId lines v :
  id_invariant v -> id_invariant (fold_left (on_stdout_line env) lines v).
Proof.
  revert v; induction lines as [|l lines IH]; intros v I; simpl; auto.
  apply IH. now apply step_sessionId.
Qed.

Lemma agent_message_text_truthy line text :
  agent_message_text env line = Some text -> truthy text = true.
Proof.
  unfold agent_message_text.
  destruct (is_empty (trim line)); [discriminate|].
  destruct (JSON_parse env (trim line)) as [e|json]; [discriminate|].
  destruct (_ && _ && truthy _) eqn:C; [|discriminate].
  intros [= <-]. now apply andb_prop in C as [_ C].
Qed.

Lemma last_some_In {A} (xs : list (option A)) a :
  last_some xs = Some a -> In (Some a) xs.
Proof.
  induction xs as [|x xs IH]; simpl; [discriminate|].
  destruct (last_some xs); intros E; [right; auto | left; auto].
Qed.

Lemma read_rawOutput lines : rawOutput (read_lines env lines) = transcript lines.
Proof. unfold read_lines. now rewrite fold_rawOutput. Qed.

Lemma read_display lines :
  (if truthy (finalMessage (read_lines env lines))
   then finalMessage (read_lines env lines)
   else JStr (rawOutput (read_lines env lines)))
  = display_text env lines.
Proof.
  unfold read_lines, display_text. rewrite fold_finalMessage, fold_rawOutput.
  destruct (last_some _) as [text|] eqn:L; simpl; [|reflexivity].
  apply last_some_In, in_map_iff in L as (line & E & _).
  now rewrite (agent_message_text_truthy _ _ E).
Qed.

Lemma read_sessionId lines : id_invariant (read_lines env lines).
Proof. apply fold_sessionId. now left. Qed.

Lemma with_fallback_invariant v :
  id_invariant v -> with_fallback v = JNull \/ truthy (with_fallback v) = true.
Proof.
  unfold with_fallback, id_invariant. intros [E|T].
  - rewrite E. simpl. destruct (Pattern.thread_id_match _) as [g|] eqn:M; auto.
    right. apply thread_id_match_Some in M as (pre & (ds & post & _ & _ & _ & L & _) & _).
    now destruct g.
  - rewrite T. auto.
Qed.

Lemma truthy_not_null v : truthy v = true -> v <> JNull.
Proof. now intros T ->. Qed.
End ExtractorFacts.

Section RunnerFacts.
Import Jsonl Spec.
Variable env : Env.

Lemma step_structured v line :
  sessionId (on_stdout_line env v line)
  = match thread_started_id env line with
    | Some id => id
    | None => sessionId v
    end.
Proof.
  unfold on_stdout_line, thread_started_id.
  destruct (is_empty (trim line)); [reflexivity|].
  destruct (JSON_parse env (trim line)) as [e|json]; [reflexivity|].
  unfold on_json.
  change (get_opt json "type")
    with (match get json "type" with inr x => x | inl _ => JUndefined end).
  destruct (get json "type") as [e|type] eqn:G; [reflexivity|].
  destruct (strict_eq_str type "thread.started" && _); simpl;
    now destruct (_ && _ && _).
Qed.

Lemma fold_structured lines v :
  sessionId (fold_left (on_stdout_line env) lines v)
  = match last_some (map (thread_started_id env) lines) with
    | Some id => id
    | None => sessionId v
    end.
Proof.
  revert v; induction lines as [|l lines IH]; intros v; simpl; [reflexivity|].
  rewrite IH, step_structured.
  now destruct (last_some _), (thread_started_id env l).
Qed.

Lemma last_some_None {A} (xs : list (option A)) :
  (forall x, In x xs -> x = None) -> last_some xs = None.
Proof.
  induction xs as [|x xs IH]; simpl; [reflexivity|]. intros H.
  rewrite IH by auto. auto.
Qed.

Lemma last_some_last {A} (xs ys : list (option A)) a :
  (forall y, In y ys -> y = None) -> last_some (xs ++ Some a :: ys) = Some a.
Proof.
  intros H. induction xs as [|x xs IH]; simpl.
  - now rewrite last_some_None.
  - now rewrite IH.
Qed.

Lemma no_structured_id lines :
  (forall line, In line lines -> thread_started_id env line = None) ->
  sessionId (read_lines env lines) = JNull.
Proof.
  intros H. unfold read_lines. rewrite fold_structured, last_some_None; [reflexivity|].
  intros x I. apply in_map_iff in I as (line & <- & I). auto.
Qed.

Lemma thread_started_id_truthy line id :
  thread_started_id env line = Some id -> truthy id = true.
Proof.
  unfold thread_started_id.
  destruct (is_empty (trim line)); [discriminate|].
  destruct (JSON_parse env (trim line)) as [e|json]; [discriminate|].
  destruct (_ && truthy _) eqn:C; [|discriminate].
  intros [= <-]. now apply andb_prop in C as [_ C].
Qed.

(** the extracted identifier, read off the lines: the identifier of the last
    thread-started record, else the group of the leftmost occurrence of the
    pattern in the transcript, else [null] *)
Lemma extracted_id_spec lines :
  extracted_id env lines
  = match last_some (map (thread_started_id env) lines) with
    | Some id => id
    | None =>
        match Pattern.thread_id_match (transcript lines) with
        | Some g => JStr g
        | None => JNull
        end
    end.
Proof.
  unfold extracted_id, with_fallback, read_lines.
  rewrite fold_structured, fold_rawOutput. cbn [sessionId rawOutput start append].
  destruct (last_some _) as [id|] eqn:L; [|reflexivity].
  apply last_some_In, in_map_iff in L as (line & E & _).
  now rewrite (thread_started_id_truthy _ _ E).
Qed.

Lemma on_close_zero label v :
  on_close label v (Some 0%Z)
  = if negb (truthy (with_fallback v))
    then inl (Error ("Could not extract session ID from " ++ label ++ " output"))
    else inr {| Outcome.sessionId := with_fallback v;
                Outcome.output := if truthy (finalMessage v) then finalMessage v
                                  else JStr (rawOutput v) |}.
Proof. reflexivity. Qed.

Lemma on_close_nonzero label v code :
  code <> Some 0%Z ->
  on_close label v code = inl (Error (label ++ " exited with code " ++ show_code code)).
Proof.
  intros N. destruct code as [[| |]|]; try reflexivity. now contradiction N.
Qed.

Lemma extracted_id_cases lines :
  extracted_id env lines = JNull /\ truthy (extracted_id env lines) = false
  \/ extracted_id env lines <> JNull /\ truthy (extracted_id env lines) = true.
Proof.
  destruct (with_fallback_invariant _ (read_sessionId env lines)) as [E|T].
  - left. unfold extracted_id. now rewrite E.
  - right. split; [now apply truthy_not_null | exact T].
Qed.

End RunnerFacts.

(** ** The subprocess runner *)

Section RunnerClaims.
Import Spec.

(** Claim C2.  A run of the subprocess resolves exactly when the child
    closes with exit status zero and a session identifier was extracted (by
    the structured capture or by the fallback scan).  Any other exit status
    rejects with the message naming the label and the exit code, whatever
    the stream contained; a zero exit without an identifier rejects with the
    missing-identifier message.  A resolved result always carries the
    extracted identifier: there is no partial success. *)
Theorem runCodexJsonl_success_iff env cliArgs cwd label st :
  let b := child env cliArgs (spawn_dir env cwd) in
  let r := fst (runCodexJsonl env cliArgs cwd label st) in
  (resolved r <->
     exists lines, b = ProcClose lines (Some 0%Z) /\ extracted_id env lines <> JNull)
  /\ (forall lines code, b = ProcClose lines code -> code <> Some 0%Z ->
        r = inl (Error (label ++ " exited with code " ++ Jsonl.show_code code)))
  /\ (forall lines, b = ProcClose lines (Some 0%Z) -> extracted_id env lines = JNull ->
        r = inl (Error ("Could not extract session ID from " ++ label ++ " output")))
  /\ (forall result, r = inr result ->
        exists lines, b = ProcClose lines (Some 0%Z)
                      /\ Outcome.sessionId result = extracted_id env lines).
Proof.
  cbn zeta. unfold runCodexJsonl, resolved. cbn [fst].
  destruct (child env cliArgs (spawn_dir env cwd)) as [e|lines e|lines code];
    cbn [settle].
  - split; [split|split; [|split]]; try discriminate.
    + intros [a H]; discriminate.
    + intros (lines & H & _); discriminate.
  - split; [split|split; [|split]]; try discriminate.
    + intros [a H]; discriminate.
    + intros (lines' & H & _); discriminate.
  - assert (Z0 : forall (c : option Z), {c = Some 0%Z} + {c <> Some 0%Z}).
    { intros [[| |]|]; (now left) || (right; discriminate). }
    destruct (Z0 code) as [->|N].
    + rewrite on_close_zero. fold (extracted_id env lines).
      destruct (extracted_id_cases env lines) as [[E T]|[E T]]; rewrite T; cbn [negb].
      * split; [split|split; [|split]].
        { intros [a H]; discriminate. }
        { intros (lines' & [= <-] & H). now contradiction H. }
        { intros lines' code [= <- <-] H. now contradiction H. }
        { now intros lines' [= <-] _. }
        { discriminate. }
      * split; [split|split; [|split]].
        { intros _. now exists lines. }
        { intros _. eexists; reflexivity. }
        { intros lines' code [= <- <-] H. now contradiction H. }
        { intros lines' [= <-] H. now contradiction E. }
        { intros result [= <-]. now exists lines. }
    + rewrite on_close_nonzero by exact N.
      split; [split|split; [|split]].
      * intros [a H]; discriminate.
      * intros (lines' & [= _ E] & _). now contradiction N.
      * now intros lines' code' [= <- <-] _.
      * intros lines' [= _ E]. now contradiction N.
      * discriminate.
Qed.

Lemma runCodexJsonl_success_iff_witness :
  fst (runCodexJsonl
         (Sample.world (ProcClose [Sample.thread_started_line] (Some 1%Z)))
         [JStr "exec"] JUndefined "Codex" initial_state)
  = inl (Error "Codex exited with code 1")
  /\ fst (runCodexJsonl (Sample.world (ProcClose ["no identifier here"] (Some 0%Z)))
            [JStr "exec"] JUndefined "Codex" initial_state)
     = inl (Error "Could not extract session ID from Codex output").
Proof.
  split.
  - apply (proj1 (proj2 (runCodexJsonl_success_iff
       (Sample.world (ProcClose [Sample.thread_started_line] (Some 1%Z)))
       [JStr "exec"] JUndefined "Codex" initial_state))
       [Sample.thread_started_line] (Some 1%Z)); [reflexivity | discriminate].
  - apply (proj1 (proj2 (proj2 (runCodexJsonl_success_iff
       (Sample.world (ProcClose ["no identifier here"] (Some 0%Z)))
       [JStr "exec"] JUndefined "Codex" initial_state)))
       ["no identifier here"]); reflexivity.
Defined.

Lemma runCodexJsonl_resolved env cliArgs cwd label st result :
  fst (runCodexJsonl env cliArgs cwd label st) = inr result ->
  exists lines,
    child env cliArgs (spawn_dir env cwd) = ProcClose lines (Some 0%Z)
    /\ Outcome.sessionId result = extracted_id env lines
    /\ Outcome.output result = display_text env lines.
Proof.
  unfold runCodexJsonl. cbn [fst].
  destruct (child env cliArgs (spawn_dir env cwd)) as [e|lines e|lines code];
    cbn [settle]; try discriminate.
  destruct code as [[| |]|]; try discriminate.
  rewrite on_close_zero. destruct (negb _); [discriminate|].
  intros [= <-]. exists lines. cbn. now rewrite read_display.
Qed.

(** Claim C5.  When a run resolves, its display text is the text of the last
    line that is a completed agent-message event with a non-empty text
    (later captures replace earlier ones); when no line is such an event, it
    is the whole transcript, every line followed by a newline, in order. *)
Theorem display_text_last_agent_message env cliArgs cwd label st lines code result :
  child env cliArgs (spawn_dir env cwd) = ProcClose lines code ->
  fst (runCodexJsonl env cliArgs cwd label st) = inr result ->
  (forall before line after text,
     lines = (before ++ line :: after)%list ->
     agent_message_text env line = Some text ->
     (forall l, In l after -> agent_message_text env l = None) ->
     Outcome.output result = text)
  /\ ((forall l, In l lines -> agent_message_text env l = None) ->
      Outcome.output result = JStr (transcript lines)).
Proof.
  intros B R.
  destruct (runCodexJsonl_resolved _ _ _ _ _ _ R) as (lines' & B' & _ & O).
  rewrite B in B'. injection B' as <- _.
  rewrite O. unfold display_text. split.
  - intros before line after text -> T N.
    rewrite map_app. cbn [map]. rewrite T, last_some_last; [reflexivity|].
    intros y I. apply in_map_iff in I as (l & <- & I). auto.
  - intros N. rewrite last_some_None; [reflexivity|].
    intros y I. apply in_map_iff in I as (l & <- & I). auto.
Qed.

Lemma display_text_last_agent_message_witness :
  exists result,
    fst (runCodexJsonl
           (Sample.world
              (ProcClose [Sample.thread_started_line;
                          Sample.agent_message_line "first"; "plain text";
                          Sample.agent_message_line "second"; ""] (Some 0%Z)))
           [JStr "exec"] JUndefined "Codex" initial_state) = inr result
    /\ Outcome.output result = JStr "second".
Proof.
  eexists. split; [reflexivity|].
  apply (proj1 (display_text_last_agent_message
                  (Sample.world
                     (ProcClose [Sample.thread_started_line;
                                 Sample.agent_message_line "first"; "plain text";
                                 Sample.agent_message_line "second"; ""]
                        (Some 0%Z)))
                  [JStr "exec"] JUndefined "Codex" initial_state _ _ _
                  eq_refl eq_refl)
           [Sample.thread_started_line; Sample.agent_message_line "first";
            "plain text"]
           (Sample.agent_message_line "second") [""] (JStr "second")).
  - reflexivity.
  - reflexivity.
  - intros l [<-|[]]. reflexivity.
Defined.

(** Claim C6.  When the child exits with status zero and no line of the
    stream is a valid thread-started record, the session identifier is the
    group of the leftmost occurrence of the pattern in the raw output, and
    the run rejects with the missing-identifier message when the pattern
    occurs nowhere.  In particular, raw output that contains the literal
    token thread_id, double quote, colon, double quote followed by a UUID,
    with no occurrence of the pattern before it, yields that UUID. *)
Theorem fallback_scan_first_match env cliArgs cwd label st lines :
  child env cliArgs (spawn_dir env cwd) = ProcClose lines (Some 0%Z) ->
  (forall line, In line lines -> thread_started_id env line = None) ->
  let r := fst (runCodexJsonl env cliArgs cwd label st) in
  (forall g, first_match (transcript lines) g <->
             exists result, r = inr result /\ Outcome.sessionId result = JStr g)
  /\ ((forall pre g, ~ occurs_at pre g (transcript lines)) ->
      r = inl (Error ("Could not extract session ID from " ++ label ++ " output")))
  /\ (forall pre u post,
        transcript lines = pre ++ quoted_key ++ u ++ post ->
        is_uuid u = true ->
        (forall p g, ~ occurs_at p g pre) ->
        exists result, r = inr result /\ Outcome.sessionId result = JStr u).
Proof.
  intros B S. cbn zeta. unfold runCodexJsonl. cbn [fst]. rewrite B. cbn [settle].
  rewrite on_close_zero. unfold Jsonl.with_fallback.
  rewrite (no_structured_id env lines S), read_rawOutput. cbn [truthy negb].
  destruct (Pattern.thread_id_match (transcript lines)) as [g0|] eqn:M.
  - assert (T : truthy (JStr g0) = true).
    { apply thread_id_match_Some in M as (pre & (ds & post & _ & _ & _ & L & _) & _).
      now destruct g0. }
    rewrite T. cbn [negb]. split; [|split].
    + intros g. rewrite <- thread_id_match_Some, M. split.
      * intros [= <-]. eexists; split; reflexivity.
      * intros (result & [= <-] & [= <-]). reflexivity.
    + intros N. apply thread_id_match_None in N. congruence.
    + intros pre u post E U N. apply thread_id_match_None in N.
      rewrite E, (thread_id_match_quoted pre u post U N) in M.
      injection M as <-. eexists; split; reflexivity.
  - cbn [truthy negb]. split; [|split].
    + intros g. rewrite <- thread_id_match_Some, M. split; [discriminate|].
      intros (result & R & _). discriminate.
    + reflexivity.
    + intros pre u post E U N. apply thread_id_match_None in N.
      rewrite E, (thread_id_match_quoted pre u post U N) in M. discriminate.
Qed.

Lemma fallback_scan_first_match_witness :
  exists result,
    fst (runCodexJsonl (Sample.world (ProcClose ["starting"; Sample.loose_line] (Some 0%Z)))
           [JStr "exec"] JUndefined "Codex" initial_state) = inr result
    /\ Outcome.sessionId result = JStr Sample.uuid.
Proof.
  refine (proj2 (proj2 (fallback_scan_first_match
                  (Sample.world (ProcClose ["starting"; Sample.loose_line] (Some 0%Z)))
                  [JStr "exec"] JUndefined "Codex" initial_state
                  ["starting"; Sample.loose_line] eq_refl _))
           ("starting" ++ nl ++ "session ") Sample.uuid (dq "' ready" ++ nl) _ _ _).
  - intros line [<-|[<-|[]]]; reflexivity.
  - reflexivity.
  - reflexivity.
  - apply thread_id_match_None. reflexivity.
Defined.

End RunnerClaims.

(** ** Trimming *)

Section TrimFacts.
Import Spec.

Lemma ws1_not_ws2 a b : ws1 a = true -> ws2 a b = false.
Proof.
  unfold ws1, ws2. intros H. destruct (N.eqb_spec (byte a) 194) as [E|]; [|reflexivity].
  rewrite E in H. discriminate H.
Qed.

Lemma ws1_not_ws3 a b c : ws1 a = true -> ws3 a b c = false.
Proof.
  unfold ws1, ws3. intros H.
  destruct (N.eqb_spec (byte a) 225) as [E|]; [rewrite E in H; discriminate H|].
  destruct (N.eqb_spec (byte a) 226) as [E|]; [rewrite E in H; discriminate H|].
  destruct (N.eqb_spec (byte a) 227) as [E|]; [rewrite E in H; discriminate H|].
  destruct (N.eqb_spec (byte a) 239) as [E|]; [rewrite E in H; discriminate H|].
  reflexivity.
Qed.

Lemma ws2_not_ws3 a b c : ws2 a b = true -> ws3 a b c = false.
Proof.
  unfold ws2, ws3. intros H. apply andb_prop in H as [H _].
  apply N.eqb_eq in H. rewrite H. reflexivity.
Qed.

Lemma trimStart_cases s :
  (exists a r, s = String a r /\ ws1 a = true /\ trimStart s = trimStart r)
  \/ (exists a b r, s = String a (String b r) /\ ws2 a b = true
                    /\ trimStart s = trimStart r)
  \/ (exists a b c r, s = String a (String b (String c r)) /\ ws3 a b c = true
                      /\ trimStart s = trimStart r)
  \/ (trimStart s = s /\ (s = "" \/ ~ blank s)).
Proof.
  destruct s as [|a r]; [right; right; right; auto|].
  cbn [trimStart]. destruct (ws1 a) eqn:W1; [left; now exists a, r|].
  destruct r as [|b r].
  { right; right; right. split; [reflexivity|]. right. intros B.
    inversion B; congruence. }
  destruct (ws2 a b) eqn:W2; [right; left; now exists a, b, r|].
  destruct r as [|c r].
  { right; right; right. split; [reflexivity|]. right. intros B.
    inversion B; subst; congruence. }
  destruct (ws3 a b c) eqn:W3; [right; right; left; now exists a, b, c, r|].
  right; right; right. split; [reflexivity|]. right. intros B.
  inversion B; subst; congruence.
Qed.

Lemma trimStart_blank_bounded n s :
  String.length s <= n ->
  (trimStart s = "" <-> blank s) /\ trimStart (trimStart s) = trimStart s.
Proof.
  revert s; induction n as [|n IH]; intros s L.
  - destruct s; [|cbn in L; lia]. split; [split; [constructor | reflexivity] | reflexivity].
  - destruct (trimStart_cases s) as
      [(a & r & -> & W1 & E)|[(a & b & r & -> & W2 & E)
       |[(a & b & c & r & -> & W3 & E)|[E D]]]].
    + cbn in L. destruct (IH r ltac:(lia)) as [I1 I2]. rewrite E. split; [|exact I2].
      rewrite I1. split; [now constructor|]. intros B; inversion B; subst; auto.
      * rewrite (ws1_not_ws2 a b W1) in *. discriminate.
      * rewrite (ws1_not_ws3 a b c W1) in *. discriminate.
    + cbn in L. destruct (IH r ltac:(lia)) as [I1 I2]. rewrite E. split; [|exact I2].
      rewrite I1. split; [now constructor|].
      intros B; inversion B; subst; auto.
      * rewrite (ws1_not_ws2 a b) in W2 by assumption. discriminate.
      * rewrite (ws2_not_ws3 a b c W2) in *. discriminate.
    + cbn in L. destruct (IH r ltac:(lia)) as [I1 I2]. rewrite E. split; [|exact I2].
      rewrite I1. split; [now constructor|].
      intros B; inversion B; subst; auto.
      * rewrite (ws1_not_ws3 a b c) in W3 by assumption. discriminate.
      * rewrite (ws2_not_ws3 a b c) in W3 by assumption. discriminate.
    + rewrite !E. split; [|reflexivity].
      destruct D as [->|D]; [split; [constructor | reflexivity]|].
      split; [intros ->; constructor | intros B; now contradiction D].
Qed.

Lemma trimStart_blank s : trimStart s = "" <-> blank s.
Proof. apply (trimStart_blank_bounded (String.length s)); lia. Qed.

Lemma trimStart_idempotent s : trimStart (trimStart s) = trimStart s.
Proof. apply (trimStart_blank_bounded (String.length s)); lia. Qed.

Lemma trimEnd_empty s : trimEnd s = "" <-> trimStart s = "".
Proof.
  destruct s as [|a r]; [split; reflexivity|].
  cbn [trimEnd]. unfold all_ws. destruct (trimStart (String a r)) eqn:T; cbn.
  - split; reflexivity.
  - split; discriminate.
Qed.

(** trimming leaves nothing exactly when the text is white space only *)
Lemma trim_empty_blank s : trim s = "" <-> blank s.
Proof.
  unfold trim. now rewrite trimEnd_empty, trimStart_idempotent, trimStart_blank.
Qed.
End TrimFacts.

(** ** The command builders *)

Section BuilderFacts.
Import Spec.
Variable env : Env.

Lemma runCodexJsonl_state cliArgs cwd label st :
  snd (runCodexJsonl env cliArgs cwd label st)
  = record_spawn {| argv := cliArgs; spawn_cwd := spawn_dir env cwd |} st.
Proof. reflexivity. Qed.

Lemma runCodexJsonl_eq cliArgs cwd label st :
  runCodexJsonl env cliArgs cwd label st
  = (settle env label (child env cliArgs (spawn_dir env cwd)),
     record_spawn {| argv := cliArgs; spawn_cwd := spawn_dir env cwd |} st).
Proof. reflexivity. Qed.

(** the spawn trace of a start: nothing when the arguments cannot be read,
    else one call *)
Lemma runCodexStart_spawned args st :
  spawned (snd (runCodexStart env args st))
  = match get args "prompt" with
    | inl _ => spawned st
    | inr prompt =>
        (spawned st
         ++ [{| argv := JStr "exec" :: prompt :: JStr "--sandbox" :: JStr "read-only"
                          :: ((if truthy (get_opt args "cwd")
                               then [JStr "-C"; get_opt args "cwd"] else [])
                              ++ [JStr "--json"]);
                spawn_cwd := spawn_dir env (get_opt args "cwd") |}])%list
    end.
Proof.
  unfold runCodexStart, bind, lift.
  destruct (get args "prompt") as [e|prompt]; [reflexivity|].
  rewrite runCodexJsonl_eq.
  now destruct (settle env "Codex" _).
Qed.

Lemma runCodexReview_eq args st :
  runCodexReview env args st
  = if negb (truthy args) || negb (truthy (get_opt args "mode"))
    then (inl (Error "codex-review requires mode"), st)
    else match review_options args (get_opt args "mode") with
         | inl e => (inl e, st)
         | inr options =>
             runCodexJsonl env
               ([JStr "exec"]
                  ++ (if truthy (get_opt args "cwd")
                      then [JStr "-C"; get_opt args "cwd"] else [])
                  ++ [JStr "--json"; JStr "review"] ++ options)%list
               (get_opt args "cwd") "Codex review" st
         end.
Proof.
  unfold runCodexReview. destruct (negb (truthy args) || _); [reflexivity|].
  unfold bind, lift. destruct (review_options args _); [reflexivity|].
  now rewrite <- !app_assoc.
Qed.

Lemma get_opt_truthy args k : truthy (get_opt args k) = true -> truthy args = true.
Proof. destruct args; simpl; try discriminate; auto. Qed.

Lemma review_mode_present args m :
  get_opt args "mode" = JStr m -> m <> "" ->
  negb (truthy args) || negb (truthy (get_opt args "mode")) = false.
Proof.
  intros E N. assert (T : truthy (get_opt args "mode") = true).
  { rewrite E. now destruct m. }
  now rewrite (get_opt_truthy _ _ T), T.
Qed.
End BuilderFacts.

Section BuilderClaims.
Import Spec.

(** Claim C7.  A start whose arguments can be read spawns exactly one child;
    its argument vector is exec, the prompt, and then the flags, among which
    --sandbox is immediately followed by read-only and --json occurs; the
    flags contain -C (immediately followed by the directory) exactly when a
    working directory was supplied, that is when [args.cwd] is truthy.  A
    start whose arguments are [null] or [undefined] throws before it spawns
    anything. *)
Theorem start_argument_vector env args st :
  let cwd := get_opt args "cwd" in
  match get args "prompt" with
  | inl _ => spawned (snd (runCodexStart env args st)) = spawned st
  | inr prompt =>
      exists flags,
        spawned (snd (runCodexStart env args st))
        = (spawned st ++ [{| argv := JStr "exec" :: prompt :: flags;
                             spawn_cwd := spawn_dir env cwd |}])%list
        /\ adjacent (JStr "--sandbox") (JStr "read-only") flags
        /\ In (JStr "--json") flags
        /\ (adjacent (JStr "-C") cwd flags <-> truthy cwd = true)
        /\ (In (JStr "-C") flags <-> truthy cwd = true)
  end.
Proof.
  cbn zeta. rewrite runCodexStart_spawned.
  destruct (get args "prompt") as [e|prompt]; [reflexivity|].
  eexists. split; [reflexivity|].
  split; [eexists [], _; reflexivity|].
  split; [right; right; apply in_or_app; right; now left|].
  destruct (truthy (get_opt args "cwd")) eqn:T; cbn [app].
  - split; split; auto.
    + intros _. now exists [JStr "--sandbox"; JStr "read-only"], [JStr "--json"].
    + intros _. cbn. auto.
  - split; split; try discriminate.
    + intros (l1 & l2 & E).
      destruct l1 as [|a [|b [|c l1]]]; try discriminate E.
      destruct l1; discriminate E.
    + cbn. intros [H|[H|[H|[]]]]; discriminate H.
Qed.

Lemma start_argument_vector_witness :
  exists flags,
    spawned (snd (runCodexStart (Sample.world Sample.healthy)
                    (JObj [("prompt", JStr "hello"); ("cwd", JStr "/repo")])
                    initial_state))
    = [{| argv := JStr "exec" :: JStr "hello" :: flags; spawn_cwd := JStr "/repo" |}]
    /\ adjacent (JStr "--sandbox") (JStr "read-only") flags
    /\ In (JStr "--json") flags
    /\ (adjacent (JStr "-C") (JStr "/repo") flags <-> true = true)
    /\ (In (JStr "-C") flags <-> true = true).
Proof.
  exact (start_argument_vector (Sample.world Sample.healthy)
           (JObj [("prompt", JStr "hello"); ("cwd", JStr "/repo")]) initial_state).
Defined.

(** Claim C8.  A review either fails validation and leaves the state as it
    was, or spawns exactly one child whose argument vector has --json at some
    position [i] and the sub-operation token review right after it, at
    [i + 1]; before them come only exec and, when a working directory was
    supplied, the pair -C and the directory. *)
Theorem review_json_before_subcommand env args st :
  let st' := snd (runCodexReview env args st) in
  let cwd := get_opt args "cwd" in
  st' = st
  \/ exists call i,
       spawned st' = (spawned st ++ [call])%list
       /\ nth_error (argv call) i = Some (JStr "--json")
       /\ nth_error (argv call) (S i) = Some (JStr "review")
       /\ firstn i (argv call)
          = (JStr "exec" :: (if truthy cwd then [JStr "-C"; cwd] else []))%list.
Proof.
  cbn zeta. rewrite runCodexReview_eq.
  destruct (negb (truthy args) || _); [now left|].
  destruct (review_options args _) as [e|options]; [now left|].
  right. rewrite runCodexJsonl_state. cbn [record_spawn spawned].
  destruct (truthy (get_opt args "cwd")).
  - eexists _, 3. split; [reflexivity|]. cbn. auto.
  - eexists _, 1. split; [reflexivity|]. cbn. auto.
Qed.

Lemma review_json_before_subcommand_witness :
  snd (runCodexReview (Sample.world Sample.healthy)
         (JObj [("mode", JStr "uncommitted"); ("cwd", JStr "/repo")]) initial_state)
  = initial_state
  \/ exists call i,
       spawned (snd (runCodexReview (Sample.world Sample.healthy)
                       (JObj [("mode", JStr "uncommitted"); ("cwd", JStr "/repo")])
                       initial_state))
       = [call]
       /\ nth_error (argv call) i = Some (JStr "--json")
       /\ nth_error (argv call) (S i) = Some (JStr "review")
       /\ firstn i (argv call) = [JStr "exec"; JStr "-C"; JStr "/repo"].
Proof.
  exact (review_json_before_subcommand (Sample.world Sample.healthy)
           (JObj [("mode", JStr "uncommitted"); ("cwd", JStr "/repo")])
           initial_state).
Defined.

(** Claim C4.  Validation of a review request, every case rejecting with the
    state unchanged, hence before any child is spawned: a missing mode
    (missing arguments, or a mode that is absent or otherwise falsy); mode
    base without a base; mode commit without a commit; mode custom with a
    prompt that is absent, empty, or white space only; and any other mode
    that is present, which is named in the message by its text. *)
Theorem review_validation env args st :
  let mode := get_opt args "mode" in
  let rejected text := runCodexReview env args st = (inl (Error text), st) in
  (truthy args = false \/ truthy mode = false ->
   rejected "codex-review requires mode")
  /\ (mode = JStr "base" -> truthy (get_opt args "base") = false ->
      rejected "mode=base requires base")
  /\ (mode = JStr "commit" -> truthy (get_opt args "commit") = false ->
      rejected "mode=commit requires commit")
  /\ (mode = JStr "custom" ->
      truthy (get_opt args "prompt") = false
      \/ (exists s, get_opt args "prompt" = JStr s /\ blank s) ->
      rejected "mode=custom requires prompt")
  /\ (forall text,
        truthy mode = true ->
        mode <> JStr "uncommitted" -> mode <> JStr "base" ->
        mode <> JStr "commit" -> mode <> JStr "custom" ->
        ToString mode = inr text ->
        rejected ("Unknown review mode: " ++ text)).
Proof.
  cbn zeta. rewrite runCodexReview_eq. repeat apply conj.
  - intros [T|T]; rewrite T; [reflexivity | now rewrite orb_true_r].
  - intros E T. rewrite (review_mode_present args "base" E) by discriminate.
    rewrite E. unfold review_options. cbn. now rewrite T.
  - intros E T. rewrite (review_mode_present args "commit" E) by discriminate.
    rewrite E. unfold review_options. cbn. now rewrite T.
  - intros E P. rewrite (review_mode_present args "custom" E) by discriminate.
    rewrite E. unfold review_options. cbn.
    destruct P as [T|(s & -> & T)]; [now rewrite T|].
    apply trim_empty_blank in T.
    destruct (truthy (JStr s)); cbn; [now rewrite T | reflexivity].
  - intros text T N1 N2 N3 N4 S.
    rewrite (get_opt_truthy _ _ T), T. cbn [negb orb].
    unfold review_options.
    assert (Q : forall lit, get_opt args "mode" <> JStr lit ->
                            strict_eq_str (get_opt args "mode") lit = false).
    { intros lit N. destruct (get_opt args "mode"); try reflexivity.
      cbn. apply String.eqb_neq. congruence. }
    now rewrite (Q _ N1), (Q _ N2), (Q _ N3), (Q _ N4), S.
Qed.

Lemma review_validation_witness :
  runCodexReview (Sample.world Sample.healthy) (JObj []) initial_state
  = (inl (Error "codex-review requires mode"), initial_state)
  /\ runCodexReview (Sample.world Sample.healthy) (JObj [("mode", JStr "base")])
       initial_state
     = (inl (Error "mode=base requires base"), initial_state)
  /\ runCodexReview (Sample.world Sample.healthy) (JObj [("mode", JStr "commit")])
       initial_state
     = (inl (Error "mode=commit requires commit"), initial_state)
  /\ runCodexReview (Sample.world Sample.healthy)
       (JObj [("mode", JStr "custom"); ("prompt", JStr "   ")]) initial_state
     = (inl (Error "mode=custom requires prompt"), initial_state)
  /\ runCodexReview (Sample.world Sample.healthy) (JObj [("mode", JStr "staged")])
       initial_state
     = (inl (Error "Unknown review mode: staged"), initial_state).
Proof.
  pose (w := Sample.world Sample.healthy).
  repeat apply conj.
  - apply (proj1 (review_validation w (JObj []) initial_state)).
    right; reflexivity.
  - apply (proj1 (proj2 (review_validation w (JObj [("mode", JStr "base")])
                           initial_state))); reflexivity.
  - apply (proj1 (proj2 (proj2 (review_validation w (JObj [("mode", JStr "commit")])
                                  initial_state)))); reflexivity.
  - apply (proj1 (proj2 (proj2 (proj2 (review_validation w
             (JObj [("mode", JStr "custom"); ("prompt", JStr "   ")])
             initial_state))))); [reflexivity|].
    right. exists "   ". split; [reflexivity|].
    apply trim_empty_blank. reflexivity.
  - apply (proj2 (proj2 (proj2 (proj2 (review_validation w
             (JObj [("mode", JStr "staged")]) initial_state)))) "staged");
      (reflexivity || discriminate).
Defined.

(** Claim C10.  A resume spawns exactly one child; its argument vector is
    exec, --json, resume, the session identifier and the prompt, in this
    order and nothing else, so that a sandbox or working-directory flag can
    only be there as the caller's own identifier or prompt; the child runs
    in the server's current directory. *)
Theorem resume_argument_vector env sessionId prompt st :
  exists call,
    spawned (snd (runCodexResume env sessionId prompt st)) = (spawned st ++ [call])%list
    /\ argv call = [JStr "exec"; JStr "--json"; JStr "resume"; sessionId; prompt]
    /\ spawn_cwd call = JStr (process_cwd env)
    /\ (forall flag, In flag (argv call) ->
          flag = JStr "exec" \/ flag = JStr "--json" \/ flag = JStr "resume"
          \/ flag = sessionId \/ flag = prompt).
Proof.
  unfold runCodexResume. rewrite runCodexJsonl_state. cbn [record_spawn spawned].
  eexists. split; [reflexivity|]. cbn [argv spawn_cwd].
  split; [reflexivity|]. split; [reflexivity|].
  intros flag [<-|[<-|[<-|[<-|[<-|[]]]]]]; auto.
Qed.

Lemma resume_argument_vector_witness :
  exists call,
    spawned (snd (runCodexResume (Sample.world Sample.healthy)
                    (JStr Sample.uuid) (JStr "and then?") initial_state))
    = [call]
    /\ argv call = [JStr "exec"; JStr "--json"; JStr "resume"; JStr Sample.uuid;
                    JStr "and then?"]
    /\ spawn_cwd call = JStr "/srv/app"
    /\ (forall flag, In flag (argv call) ->
          flag = JStr "exec" \/ flag = JStr "--json" \/ flag = JStr "resume"
          \/ flag = JStr Sample.uuid \/ flag = JStr "and then?").
Proof.
  exact (resume_argument_vector (Sample.world Sample.healthy)
           (JStr Sample.uuid) (JStr "and then?") initial_state).
Defined.
End BuilderClaims.

(** ** The dispatcher *)

Section DispatcherFacts.
Import Spec.
Variable env : Env.

(** what a builder leaves of the state: the frames and the registry *)
Lemma runCodexJsonl_frames cliArgs cwd label st :
  stdout (snd (runCodexJsonl env cliArgs cwd label st)) = stdout st
  /\ sessions (snd (runCodexJsonl env cliArgs cwd label st)) = sessions st.
Proof. now rewrite runCodexJsonl_state. Qed.

Lemma runCodexStart_outcome args st :
  fst (runCodexStart env args st) = fst (runCodexStart env args initial_state).
Proof.
  unfold runCodexStart, bind, lift.
  destruct (get args "prompt") as [e|prompt]; [reflexivity|].
  rewrite !runCodexJsonl_eq. now destruct (settle env "Codex" _).
Qed.

Lemma runCodexStart_frames args st :
  stdout (snd (runCodexStart env args st)) = stdout st.
Proof.
  unfold runCodexStart, bind, lift.
  destruct (get args "prompt") as [e|prompt]; [reflexivity|].
  rewrite runCodexJsonl_eq. now destruct (settle env "Codex" _).
Qed.

Lemma runCodexStart_sessions args st :
  sessions (snd (runCodexStart env args st))
  = match fst (runCodexStart env args st) with
    | inr result =>
        map_set (sessions st) (Outcome.sessionId result)
          {| created := Date_now env; initialPrompt := get_opt args "prompt" |}
    | inl _ => sessions st
    end.
Proof.
  unfold runCodexStart, bind, lift, get_opt.
  destruct (get args "prompt") as [e|prompt]; [reflexivity|].
  rewrite runCodexJsonl_eq. now destruct (settle env "Codex" _).
Qed.

Lemma runCodexResume_frames sessionId prompt st :
  stdout (snd (runCodexResume env sessionId prompt st)) = stdout st
  /\ sessions (snd (runCodexResume env sessionId prompt st)) = sessions st.
Proof. apply runCodexJsonl_frames. Qed.

Lemma runCodexReview_frames args st :
  stdout (snd (runCodexReview env args st)) = stdout st
  /\ sessions (snd (runCodexReview env args st)) = sessions st.
Proof.
  rewrite runCodexReview_eq. destruct (negb (truthy args) || _); [now split|].
  destruct (review_options args _); [now split|]. apply runCodexJsonl_frames.
Qed.

Lemma answers_sendResponse id result : answers id (sendResponse id result).
Proof. intros st. cbn. eexists; split; reflexivity. Qed.

Lemma answers_sendError id code msg : answers id (sendError id code msg).
Proof. intros st. cbn. eexists; split; reflexivity. Qed.

Lemma answers_bind {A} id (m : M A) (k : A -> M unit) :
  silent m -> (forall a, answers id (k a)) -> answers id (bind m k).
Proof.
  intros S K st. unfold bind. specialize (S st).
  destruct (m st) as [[e|a] st']; cbn in S; [exact S|].
  specialize (K a st'). destruct (k a st') as [[e|u] st'']; now rewrite <- S.
Qed.

Lemma silent_lift {A} (c : completion A) : silent (lift c).
Proof. now intros st. Qed.

Lemma answers_respond message result :
  answers (get_opt message "id") (respond message result).
Proof.
  apply answers_bind; [apply silent_lift|]. intros a. apply answers_sendResponse.
Qed.

Lemma keeps_bind {A B} (m : M A) (k : A -> M B) :
  keeps_sessions m -> (forall a, keeps_sessions (k a)) -> keeps_sessions (bind m k).
Proof.
  intros S K st. unfold bind. specialize (S st).
  destruct (m st) as [[e|a] st']; cbn in S; [exact S|].
  now rewrite K.
Qed.

Lemma keeps_lift {A} (c : completion A) : keeps_sessions (lift c).
Proof. now intros st. Qed.

Lemma keeps_sendResponse id result : keeps_sessions (sendResponse id result).
Proof. now intros st. Qed.

Lemma keeps_sendError id code msg : keeps_sessions (sendError id code msg).
Proof. now intros st. Qed.

Lemma keeps_respond message result : keeps_sessions (respond message result).
Proof.
  apply keeps_bind; [apply keeps_lift|]. intros a. apply keeps_sendResponse.
Qed.

Lemma keeps_try_catch {A} (m : M A) (handler : jserror -> M A) :
  keeps_sessions m -> (forall e, keeps_sessions (handler e)) ->
  keeps_sessions (try_catch m handler).
Proof.
  intros S K st. unfold try_catch. specialize (S st).
  destruct (m st) as [[e|a] st']; cbn in S; [|exact S].
  now rewrite K.
Qed.

(** a handler that answers in the [catch] makes the whole [try] return with
    exactly one frame written *)
Lemma try_catch_one_frame id (body : M unit) code st :
  answers id body ->
  exists frame st',
    try_catch body (fun e => sendError id code (message_of e)) st = (inr tt, st')
    /\ stdout st' = (stdout st ++ [frame])%list
    /\ frame_id frame = id.
Proof.
  intros B. specialize (B st). unfold try_catch.
  destruct (body st) as [[e|[]] st'].
  - exists (ErrorFrame id code (message_of e)),
      (emit (ErrorFrame id code (message_of e)) st').
    cbn. now rewrite B.
  - destruct B as (frame & O & I). now exists frame, st'.
Qed.

(** the [try] block of [handleToolCall] for a tool name and its arguments *)
Lemma tool_body_answers message name args :
  answers (get_opt message "id")
    (if strict_eq_str name "codex" then
       bind (runCodexStart env args) (fun result => respond message result)
     else if strict_eq_str name "codex-reply" then
       bind (lift (get args "sessionId")) (fun sessionId =>
       bind (lift (get args "prompt")) (fun prompt =>
       bind (runCodexResume env sessionId prompt) (fun result =>
       respond message result)))
     else if strict_eq_str name "codex-review" then
       bind (runCodexReview env args) (fun result => respond message result)
     else
       bind (lift (ToString name)) (fun text =>
       sendError (get_opt message "id") (-32602) ("Unknown tool: " ++ text))).
Proof.
  destruct (strict_eq_str name "codex").
  { apply answers_bind; [intros st; apply runCodexStart_frames|].
    intros; apply answers_respond. }
  destruct (strict_eq_str name "codex-reply").
  { apply answers_bind; [apply silent_lift|]. intros sessionId.
    apply answers_bind; [apply silent_lift|]. intros prompt.
    apply answers_bind; [intros st; apply runCodexResume_frames|].
    intros; apply answers_respond. }
  destruct (strict_eq_str name "codex-review").
  { apply answers_bind; [intros st; apply runCodexReview_frames|].
    intros; apply answers_respond. }
  apply answers_bind; [apply silent_lift|]. intros; apply answers_sendError.
Qed.

Lemma handleToolCall_one_frame message st :
  get_opt message "params" <> JUndefined -> get_opt message "params" <> JNull ->
  exists frame st',
    handleToolCall env message st = (inr tt, st')
    /\ stdout st' = (stdout st ++ [frame])%list
    /\ frame_id frame = get_opt message "id".
Proof.
  intros U N. unfold handleToolCall, bind at 1, lift at 1.
  destruct (destructure_params (get_opt message "params")) as [e|[name args]] eqn:D.
  { destruct (get_opt message "params"); try discriminate D; now contradiction. }
  apply try_catch_one_frame, tool_body_answers.
Qed.

Lemma handleToolCall_sessions message st :
  sessions (snd (handleToolCall env message st))
  = match destructure_params (get_opt message "params") with
    | inr (name, args) =>
        if strict_eq_str name "codex"
        then match fst (runCodexStart env args initial_state) with
             | inr result =>
                 map_set (sessions st) (Outcome.sessionId result)
                   {| created := Date_now env;
                      initialPrompt := get_opt args "prompt" |}
             | inl _ => sessions st
             end
        else sessions st
    | inl _ => sessions st
    end.
Proof.
  unfold handleToolCall, bind at 1, lift at 1.
  destruct (destructure_params (get_opt message "params")) as [e|[name args]];
    [reflexivity|].
  destruct (strict_eq_str name "codex").
  { rewrite <- runCodexStart_outcome with (st := st), <- runCodexStart_sessions.
    unfold try_catch, bind.
    destruct (runCodexStart env args st) as [[e|result] st']; cbn [snd].
    - reflexivity.
    - pose proof (keeps_respond message result st') as K.
      destruct (respond message result st') as [[e|u] st'']; cbn in K |- *; auto. }
  apply keeps_try_catch; [|intros; apply keeps_sendError].
  destruct (strict_eq_str name "codex-reply").
  { apply keeps_bind; [apply keeps_lift|]. intros sessionId.
    apply keeps_bind; [apply keeps_lift|]. intros prompt.
    apply keeps_bind; [intros s; apply runCodexResume_frames|].
    intros; apply keeps_respond. }
  destruct (strict_eq_str name "codex-review").
  { apply keeps_bind; [intros s; apply runCodexReview_frames|].
    intros; apply keeps_respond. }
  apply keeps_bind; [apply keeps_lift|]. intros; apply keeps_sendError.
Qed.
End DispatcherFacts.

Section RouteFacts.
Import Spec.
Variable env : Env.

Lemma strict_eq_str_true v lit : strict_eq_str v lit = true <-> v = JStr lit.
Proof.
  destruct v; cbn; try (split; [discriminate | intros H; discriminate H]).
  rewrite String.eqb_eq. split; congruence.
Qed.

Lemma strict_eq_str_false v lit : strict_eq_str v lit = false <-> v <> JStr lit.
Proof.
  rewrite <- strict_eq_str_true. destruct (strict_eq_str v lit); split; congruence.
Qed.

Lemma get_opt_of_get v k : get_opt v k = match get v k with inr x => x | inl _ => JUndefined end.
Proof. reflexivity. Qed.

Lemma route_message line message method st :
  JSON_parse env line = inr message -> get message "method" = inr method ->
  route env line st
  = (if strict_eq_str method "initialize" then handleInitialize message
     else if strict_eq_str method "initialized" then ret tt
     else if strict_eq_str method "tools/list" then handleToolsList message
     else if strict_eq_str method "tools/call" then handleToolCall env message
     else sendError (get_opt message "id") (-32601) "Method not found") st.
Proof.
  intros P G. unfold route. rewrite P. unfold bind at 1, lift at 1.
  rewrite G. reflexivity.
Qed.

(** the registry after one inbound line *)
Lemma on_line_sessions line st :
  sessions (on_line env line st)
  = match started env line with
    | Some result =>
        map_set (sessions st) (Outcome.sessionId result) (record_of env line)
    | None => sessions st
    end.
Proof.
  unfold on_line, route, started, record_of, start_request, bind at 1, lift at 1.
  destruct (JSON_parse env line) as [e|message]; [reflexivity|].
  unfold bind at 1, lift at 1. rewrite (get_opt_of_get message "method").
  destruct (get message "method") as [e|method]; [reflexivity|].
  destruct (strict_eq_str method "initialize") eqn:M1.
  { apply strict_eq_str_true in M1 as ->. reflexivity. }
  destruct (strict_eq_str method "initialized") eqn:M2.
  { apply strict_eq_str_true in M2 as ->. reflexivity. }
  destruct (strict_eq_str method "tools/list") eqn:M3.
  { apply strict_eq_str_true in M3 as ->. reflexivity. }
  destruct (strict_eq_str method "tools/call") eqn:M4; [|reflexivity].
  pose proof (handleToolCall_sessions env message st) as H.
  destruct (handleToolCall env message st) as [[e|u] st']; cbn [snd] in H;
    cbn [sessions log_error]; rewrite H;
    destruct (destructure_params (get_opt message "params")) as [e'|[name args]];
    try reflexivity;
    destruct (strict_eq_str name "codex"); try reflexivity;
    now destruct (fst (runCodexStart env args initial_state)).
Qed.

Lemma same_value_zero_eq a b : same_value_zero a b = true -> a = b.
Proof.
  destruct a, b; cbn; try discriminate; auto.
  - intros H. apply Bool.eqb_prop in H. congruence.
  - intros H. apply String.eqb_eq in H. congruence.
  - intros H. apply String.eqb_eq in H. congruence.
Qed.

Lemma keys_map_set {V} (m : list (JSValue * V)) k v x :
  In x (keys (map_set m k v)) <-> In x (keys m) \/ x = k.
Proof.
  induction m as [|[k' v'] m IH]; cbn.
  - intuition congruence.
  - destruct (same_value_zero k' k) eqn:E; cbn.
    + apply same_value_zero_eq in E as ->. intuition congruence.
    + rewrite IH. intuition.
Qed.

End RouteFacts.

Section DispatcherClaims.
Import Spec.

Lemma run_sessions inputs st k :
  In k (keys (sessions (run inputs st)))
  <-> In k (keys (sessions st))
      \/ exists env line result,
           In (env, line) inputs /\ started env line = Some result
           /\ Outcome.sessionId result = k.
Proof.
  revert st; induction inputs as [|[env line] inputs IH]; intros st; cbn [run].
  - split; [auto | intros [H|(env & line & result & [] & _)]; exact H].
  - rewrite IH, on_line_sessions. split.
    + intros [H|(env' & line' & result & I & S & E)].
      * destruct (started env line) as [result|] eqn:S; [|now left].
        apply keys_map_set in H as [H| ->]; [now left|].
        right. exists env, line, result. cbn. auto.
      * right. exists env', line', result. cbn. auto.
    + intros [H|(env' & line' & result & [[= <- <-]|I] & S & E)].
      * left. destruct (started env line); [apply keys_map_set|]; auto.
      * left. rewrite S. apply keys_map_set. auto.
      * right. now exists env', line', result.
Qed.

(** Claim C9.  Starting from the empty registry, after any run an identifier
    is a key of the registry exactly when some line of the run was a start
    that completed successfully with this identifier.  One inbound line
    changes the registry only when it is such a start, and then by one
    [Map.set] of the new record; no key is ever removed; resume and review
    leave the registry as it was. *)
Theorem registry_records_successful_starts :
  (forall inputs k,
      In k (keys (sessions (run inputs initial_state)))
      <-> exists env line result,
            In (env, line) inputs /\ started env line = Some result
            /\ Outcome.sessionId result = k)
  /\ (forall env line st,
        sessions (on_line env line st)
        = match started env line with
          | Some result =>
              map_set (sessions st) (Outcome.sessionId result) (record_of env line)
          | None => sessions st
          end)
  /\ (forall env line st k,
        In k (keys (sessions st)) -> In k (keys (sessions (on_line env line st))))
  /\ (forall env sessionId prompt st,
        sessions (snd (runCodexResume env sessionId prompt st)) = sessions st)
  /\ (forall env args st,
        sessions (snd (runCodexReview env args st)) = sessions st).
Proof.
  repeat apply conj.
  - intros inputs k. rewrite run_sessions. cbn. intuition.
  - intros. apply on_line_sessions.
  - intros env line st k H. rewrite on_line_sessions.
    destruct (started env line); [apply keys_map_set|]; auto.
  - intros. apply runCodexResume_frames.
  - intros. apply runCodexReview_frames.
Qed.

(** Claim C3, as amended.  For a line that parses as a JSON object: the
    method initialized is acknowledged silently, no frame is written; for
    any other method, and for tools/call provided the params are neither
    absent nor null, exactly one frame is written, and it carries the id of
    the request. *)
Theorem one_response_per_request env line st fields :
  let message := JObj fields in
  let method := get_opt message "method" in
  JSON_parse env line = inr message ->
  (method = JStr "initialized" -> stdout (on_line env line st) = stdout st)
  /\ (method <> JStr "initialized" ->
      (method = JStr "tools/call" ->
       get_opt message "params" <> JUndefined /\ get_opt message "params" <> JNull) ->
      exists frame,
        stdout (on_line env line st) = (stdout st ++ [frame])%list
        /\ frame_id frame = get_opt message "id").
Proof.
  cbn zeta. intros P. unfold on_line.
  rewrite (route_message env line (JObj fields) (get_opt (JObj fields) "method") st P eq_refl).
  generalize (get_opt (JObj fields) "method"). intros method.
  split.
  - intros ->. reflexivity.
  - intros N C.
    destruct (strict_eq_str method "initialize") eqn:M1.
    { eexists. cbn. split; reflexivity. }
    apply strict_eq_str_false in N. rewrite N.
    destruct (strict_eq_str method "tools/list") eqn:M3.
    { eexists. cbn. split; reflexivity. }
    destruct (strict_eq_str method "tools/call") eqn:M4.
    + apply strict_eq_str_true in M4. destruct (C M4) as [U V].
      destruct (handleToolCall_one_frame env (JObj fields) st U V)
        as (frame & st' & -> & O & I).
      now exists frame.
    + eexists. cbn. split; reflexivity.
Qed.
Lemma one_response_per_request_witness :
  exists frame,
    stdout (on_line (Sample.world Sample.healthy)
              (Sample.request_line "5" "tools/call"
                 (Sample.call_params "codex-review" (dq "{'mode':'base'}")))
              initial_state)
    = [frame]
    /\ frame_id frame = JNum "5".
Proof.
  apply (proj2 (one_response_per_request (Sample.world Sample.healthy)
                  (Sample.request_line "5" "tools/call"
                     (Sample.call_params "codex-review" (dq "{'mode':'base'}")))
                  initial_state _ eq_refl)).
  - discriminate.
  - intros _. split; discriminate.
Defined.

(** Claim C3, counterexample.  The request with id 7 and method initialized
    parses as a JSON-RPC message with an id, and no frame at all is written
    for it. *)
Lemma initialized_request_gets_no_response :
  let env := Sample.world Sample.healthy in
  let line := Sample.request_line "7" "initialized" "" in
  JSON_parse env line = inr (Sample.request "7" "initialized" [])
  /\ get_opt (Sample.request "7" "initialized" []) "id" = JNum "7"
  /\ stdout (on_line env line initial_state) = []
  /\ ~ (exists frame,
          stdout (on_line env line initial_state)
          = (stdout initial_state ++ [frame])%list
          /\ frame_id frame = JNum "7").
Proof.
  cbn zeta. repeat apply conj; try reflexivity.
  intros (frame & H & _). discriminate H.
Qed.

(** The other silent case: the parameters of a tools/call are read before
    the [try] of [handleToolCall] is entered, so a request without params is
    only reported on the diagnostic channel. *)
Example tools_call_without_params_unanswered :
  let st := on_line (Sample.world Sample.healthy)
              (Sample.request_line "8" "tools/call" "") initial_state in
  stdout st = []
  /\ logged st
     = [TypeError
          "Cannot destructure property 'name' of 'message.params' as it is undefined."].
Proof. split; reflexivity. Qed.

Lemma registry_records_successful_starts_witness :
  In (JStr Sample.uuid)
     (keys (sessions
              (run [(Sample.world Sample.healthy,
                     Sample.request_line "4" "tools/call"
                       (Sample.call_params "codex" (dq "{'prompt':'hello'}")));
                    (Sample.world Sample.healthy,
                     Sample.request_line "1" "tools/call"
                       (Sample.call_params "codex-reply" "{}"))]
                 initial_state))).
Proof.
  apply (proj1 registry_records_successful_starts).
  eexists _, _, _. split; [left; reflexivity|]. split; reflexivity.
Defined.

(** Claim C1, at the failing inputs.  A resume whose arguments lack
    sessionId and prompt, a resume with both empty, and a start without a
    prompt each spawn a child and are answered with a result frame; only
    the review checks its required parameter before spawning. *)
Theorem missing_parameters_still_spawn :
  let env := Sample.world Sample.healthy in
  map argv
    (spawned (on_line env
                (Sample.request_line "1" "tools/call"
                   (Sample.call_params "codex-reply" "{}")) initial_state))
  = [[JStr "exec"; JStr "--json"; JStr "resume"; JUndefined; JUndefined]]
  /\ map argv
       (spawned (on_line env
                   (Sample.request_line "2" "tools/call"
                      (Sample.call_params "codex-reply"
                         (dq "{'sessionId':'','prompt':''}"))) initial_state))
     = [[JStr "exec"; JStr "--json"; JStr "resume"; JStr ""; JStr ""]]
  /\ map argv
       (spawned (on_line env
                   (Sample.request_line "3" "tools/call"
                      (Sample.call_params "codex" "{}")) initial_state))
     = [[JStr "exec"; JUndefined; JStr "--sandbox"; JStr "read-only"; JStr "--json"]]
  /\ (exists result,
        stdout (on_line env
                  (Sample.request_line "1" "tools/call"
                     (Sample.call_params "codex-reply" "{}")) initial_state)
        = [ResultFrame (JNum "1") result])
  /\ spawned (on_line env
                (Sample.request_line "5" "tools/call"
                   (Sample.call_params "codex-review" (dq "{'mode':'base'}")))
                initial_state)
     = []
  /\ stdout (on_line env
               (Sample.request_line "5" "tools/call"
                  (Sample.call_params "codex-review" (dq "{'mode':'base'}")))
               initial_state)
     = [ErrorFrame (JNum "5") (-32603) "mode=base requires base"].
Proof.
  cbn zeta. repeat apply conj; try reflexivity.
  eexists. reflexivity.
Qed.

(** The declared schema of the tools does require these parameters. *)
Example declared_required_parameters :
  map (fun t => (get_opt t "name", get_opt (get_opt t "inputSchema") "required")) tools
  = [(JStr "codex", JArr [JStr "prompt"]);
     (JStr "codex-reply", JArr [JStr "sessionId"; JStr "prompt"]);
     (JStr "codex-review", JArr [JStr "mode"])].
Proof. reflexivity. Qed.
End DispatcherClaims.

(** * Further properties *)

(** ** Helper facts *)

Section StartFacts.
Import Spec Catalogue Registry.
Variable env : Env.

(** a stream whose last thread-started record carries [id] settles, on a
    zero exit, with that identifier and the display text *)
Lemma settle_structured label before line after id :
  thread_started_id env line = Some id ->
  (forall l, In l after -> thread_started_id env l = None) ->
  settle env label (ProcClose (before ++ line :: after) (Some 0%Z))
  = inr {| Outcome.sessionId := id;
           Outcome.output := display_text env (before ++ line :: after) |}.
Proof.
  intros T N. cbn [settle]. rewrite on_close_zero.
  change (Jsonl.with_fallback (Jsonl.read_lines env (before ++ line :: after)))
    with (extracted_id env (before ++ line :: after)).
  assert (E : extracted_id env (before ++ line :: after) = id).
  { rewrite extracted_id_spec, map_app. cbn [map]. rewrite T, last_some_last; auto.
    intros y I. apply in_map_iff in I as (l & <- & I). auto. }
  rewrite E, (thread_started_id_truthy _ _ _ T), read_display. reflexivity.
Qed.

Lemma settle_truthy label b result :
  settle env label b = inr result -> truthy (Outcome.sessionId result) = true.
Proof.
  destruct b as [e|lines e|lines [[| |]|]]; cbn [settle]; try discriminate.
  rewrite on_close_zero.
  destruct (truthy (Jsonl.with_fallback _)) eqn:T; cbn [negb]; [|discriminate].
  now intros [= <-].
Qed.

Lemma runCodexStart_truthy args st result :
  fst (runCodexStart env args st) = inr result ->
  truthy (Outcome.sessionId result) = true.
Proof.
  unfold runCodexStart, bind, lift.
  destruct (get args "prompt") as [e|prompt]; [discriminate|].
  rewrite runCodexJsonl_eq.
  destruct (settle env "Codex" _) as [e|r] eqn:S; [discriminate|].
  intros [= <-]. now apply settle_truthy in S.
Qed.

Lemma started_truthy line result :
  started env line = Some result -> truthy (Outcome.sessionId result) = true.
Proof.
  unfold started. destruct (start_request env line) as [args|]; [|discriminate].
  destruct (fst (runCodexStart env args initial_state)) eqn:R; [discriminate|].
  intros [= <-]. now apply runCodexStart_truthy in R.
Qed.



Lemma same_value_zero_refl k : is_primitive k = true -> same_value_zero k k = true.
Proof.
  destruct k; cbn; try discriminate; auto using String.eqb_refl.
  now destruct b.
Qed.

Lemma map_set_keys {V} (m : list (JSValue * V)) k v :
  keys (map_set m k v) = keys m
  \/ (keys (map_set m k v) = (keys m ++ [k])%list
      /\ (is_primitive k = true -> ~ In k (keys m))).
Proof.
  unfold keys. induction m as [|[k0 v0] m IH]; cbn [map_set].
  - right. split; [reflexivity | auto].
  - destruct (same_value_zero k0 k) eqn:E; cbn [map fst]; [now left|].
    destruct IH as [IH|[IH F]].
    + left. now rewrite IH.
    + right. split; [now rewrite IH|].
      intros P [->|I]; [|now apply F].
      rewrite (same_value_zero_refl _ P) in E. discriminate.
Qed.

Lemma NoDup_snoc {A} (l : list A) a : NoDup l -> ~ In a l -> NoDup (l ++ [a]).
Proof.
  induction 1 as [|x l Hx Hl IH]; cbn; intros Ha.
  - constructor; [auto | constructor].
  - constructor.
    + rewrite in_app_iff. cbn. intuition congruence.
    + apply IH. auto.
Qed.

Lemma map_set_distinct {V} (m : list (JSValue * V)) k v :
  distinct_keys m -> distinct_keys (map_set m k v).
Proof.
  unfold distinct_keys. intros D.
  destruct (map_set_keys m k v) as [-> | [-> F]]; [exact D|].
  rewrite filter_app. cbn. destruct (is_primitive k) eqn:P.
  - apply NoDup_snoc; [exact D|]. intros I. apply filter_In in I as [I _].
    now apply F.
  - now rewrite app_nil_r.
Qed.
End StartFacts.

Section EffectFacts.
Import Spec Effects.
Variable env : Env.

Lemma oblivious_lift {A} (c : completion A) : oblivious (lift c).
Proof. intros st. cbn. now rewrite !app_nil_r. Qed.

Lemma oblivious_ret {A} (a : A) : oblivious (ret a).
Proof. intros st. cbn. now rewrite !app_nil_r. Qed.

Lemma oblivious_throw {A} (e : jserror) : oblivious (@throw A e).
Proof. intros st. cbn. now rewrite !app_nil_r. Qed.

Lemma oblivious_sendResponse id result : oblivious (sendResponse id result).
Proof. intros st. cbn. now rewrite !app_nil_r. Qed.

Lemma oblivious_sendError id code msg : oblivious (sendError id code msg).
Proof. intros st. cbn. now rewrite !app_nil_r. Qed.

Lemma oblivious_runCodexJsonl cliArgs cwd label :
  oblivious (runCodexJsonl env cliArgs cwd label).
Proof. intros st. cbn. now rewrite !app_nil_r. Qed.

Lemma oblivious_sessions_set {A} (a : A) k r :
  oblivious (fun st => (inr a, sessions_set k r st)).
Proof. intros st. cbn. now rewrite !app_nil_r. Qed.

Lemma oblivious_bind {A B} (m : M A) (k : A -> M B) :
  oblivious m -> (forall a, oblivious (k a)) -> oblivious (bind m k).
Proof.
  intros Hm Hk st. unfold bind.
  destruct (Hm st) as (R & O & L & S).
  destruct (m st) as [[e|a] st1], (m initial_state) as [[e0|a0] st0];
    cbn [fst snd] in *; try discriminate R.
  - injection R as <-. auto.
  - injection R as <-.
    destruct (Hk a st1) as (R1 & O1 & L1 & S1).
    destruct (Hk a st0) as (R0 & O0 & L0 & S0).
    rewrite R1, O1, L1, S1, R0, O0, L0, S0, O, L, S. cbn.
    now rewrite !app_assoc.
Qed.

Lemma oblivious_try_catch {A} (m : M A) (handler : jserror -> M A) :
  oblivious m -> (forall e, oblivious (handler e)) -> oblivious (try_catch m handler).
Proof.
  intros Hm Hk st. unfold try_catch.
  destruct (Hm st) as (R & O & L & S).
  destruct (m st) as [[e|a] st1], (m initial_state) as [[e0|a0] st0];
    cbn [fst snd] in *; try discriminate R.
  - injection R as <-.
    destruct (Hk e st1) as (R1 & O1 & L1 & S1).
    destruct (Hk e st0) as (R0 & O0 & L0 & S0).
    rewrite R1, O1, L1, S1, R0, O0, L0, S0, O, L, S. cbn.
    now rewrite !app_assoc.
  - injection R as <-. auto.
Qed.

Lemma oblivious_if {A} (b : bool) (m1 m2 : M A) :
  oblivious m1 -> oblivious m2 -> oblivious (if b then m1 else m2).
Proof. now destruct b. Qed.

Lemma oblivious_runCodexStart args : oblivious (runCodexStart env args).
Proof.
  apply oblivious_bind; [apply oblivious_lift|]. intros prompt.
  apply oblivious_bind; [apply oblivious_runCodexJsonl|]. intros result.
  apply oblivious_sessions_set.
Qed.

Lemma oblivious_runCodexResume sessionId prompt :
  oblivious (runCodexResume env sessionId prompt).
Proof. apply oblivious_runCodexJsonl. Qed.

Lemma oblivious_runCodexReview args : oblivious (runCodexReview env args).
Proof.
  unfold runCodexReview. apply oblivious_if; [apply oblivious_throw|].
  apply oblivious_bind; [apply oblivious_lift|]. intros options.
  apply oblivious_runCodexJsonl.
Qed.

Lemma oblivious_respond message result : oblivious (respond message result).
Proof.
  apply oblivious_bind; [apply oblivious_lift|]. intros c.
  apply oblivious_sendResponse.
Qed.

Lemma oblivious_handleToolCall message : oblivious (handleToolCall env message).
Proof.
  unfold handleToolCall. apply oblivious_bind; [apply oblivious_lift|].
  intros [name args]. apply oblivious_try_catch; [|intros; apply oblivious_sendError].
  repeat apply oblivious_if.
  - apply oblivious_bind; [apply oblivious_runCodexStart|].
    intros; apply oblivious_respond.
  - apply oblivious_bind; [apply oblivious_lift|]. intros sessionId.
    apply oblivious_bind; [apply oblivious_lift|]. intros prompt.
    apply oblivious_bind; [apply oblivious_runCodexResume|].
    intros; apply oblivious_respond.
  - apply oblivious_bind; [apply oblivious_runCodexReview|].
    intros; apply oblivious_respond.
  - apply oblivious_bind; [apply oblivious_lift|].
    intros; apply oblivious_sendError.
Qed.

Lemma oblivious_route line : oblivious (route env line).
Proof.
  unfold route. apply oblivious_bind; [apply oblivious_lift|]. intros message.
  apply oblivious_bind; [apply oblivious_lift|]. intros method.
  repeat apply oblivious_if.
  - apply oblivious_sendResponse.
  - apply oblivious_ret.
  - apply oblivious_sendResponse.
  - apply oblivious_handleToolCall.
  - apply oblivious_sendError.
Qed.
End EffectFacts.

Section FootprintFacts.
Import Spec Effects.
Variable env : Env.
Context {X : Type} (proj : State -> X).


End FootprintFacts.

Section LogFacts.
Import Spec Effects.
Variable env : Env.

















End LogFacts.

Section ToolCallFacts.
Import Spec Catalogue.
Variable env : Env.

Lemma tool_content_text result sid :
  ToString (Outcome.sessionId result) = inr sid ->
  tool_content result = inr (content (Outcome.output result) sid).
Proof. unfold tool_content. now intros ->. Qed.

(** [handleToolCall] for a name it knows: run the pipeline, answer with its
    result or with its error *)
Lemma handleToolCall_known message st name args run :
  destructure_params (get_opt message "params") = inr (name, args) ->
  tool_pipeline env name args = Some run ->
  handleToolCall env message st
  = match run st with
    | (inl e, st') => sendError (get_opt message "id") (-32603) (message_of e) st'
    | (inr result, st') =>
        match tool_content result with
        | inl e => sendError (get_opt message "id") (-32603) (message_of e) st'
        | inr c => sendResponse (get_opt message "id") c st'
        end
    end.
Proof.
  intros D K. unfold handleToolCall, bind at 1, lift at 1. rewrite D.
  unfold tool_pipeline in K.
  destruct (strict_eq_str name "codex").
  { injection K as <-. unfold try_catch, bind at 1.
    destruct (runCodexStart env args st) as [[e|result] st']; [reflexivity|].
    unfold respond, bind, lift. now destruct (tool_content result). }
  destruct (strict_eq_str name "codex-reply").
  { injection K as <-. unfold try_catch, bind, lift.
    destruct (get args "sessionId") as [e|sessionId]; [reflexivity|].
    destruct (get args "prompt") as [e|prompt]; [reflexivity|].
    destruct (runCodexResume env sessionId prompt st) as [[e|result] st'];
      [reflexivity|].
    unfold respond, bind, lift. now destruct (tool_content result). }
  destruct (strict_eq_str name "codex-review"); [|discriminate K].
  injection K as <-. unfold try_catch, bind at 1.
  destruct (runCodexReview env args st) as [[e|result] st']; [reflexivity|].
  unfold respond, bind, lift. now destruct (tool_content result).
Qed.

Lemma handleToolCall_unknown message st name args :
  destructure_params (get_opt message "params") = inr (name, args) ->
  tool_pipeline env name args = None ->
  handleToolCall env message st
  = match ToString name with
    | inl e => sendError (get_opt message "id") (-32603) (message_of e) st
    | inr text =>
        sendError (get_opt message "id") (-32602) ("Unknown tool: " ++ text) st
    end.
Proof.
  intros D K. unfold handleToolCall, bind at 1, lift at 1. rewrite D.
  unfold tool_pipeline in K.
  destruct (strict_eq_str name "codex"); [discriminate K|].
  destruct (strict_eq_str name "codex-reply"); [discriminate K|].
  destruct (strict_eq_str name "codex-review"); [discriminate K|].
  unfold try_catch, bind, lift. now destruct (ToString name).
Qed.

Lemma tool_pipeline_advertised name args :
  tool_pipeline env (JStr name) args <> None <-> In (JStr name) advertised.
Proof.
  unfold tool_pipeline, advertised. cbn [strict_eq_str map tools tool get_opt get lookup].
  cbn.
  destruct (String.eqb_spec name "codex") as [->|N1].
  { split; [auto | discriminate]. }
  destruct (String.eqb_spec name "codex-reply") as [->|N2].
  { split; [auto | discriminate]. }
  destruct (String.eqb_spec name "codex-review") as [->|N3].
  { split; [auto | discriminate]. }
  split; [intros H; now contradiction H|].
  intros [[= E]|[[= E]|[[= E]|[]]]]; congruence.
Qed.

Lemma emit_neq_code st st' id id' code code' msg msg' :
  code <> code' ->
  emit (ErrorFrame id code msg) st <> emit (ErrorFrame id' code' msg') st'.
Proof.
  intros N E. apply (f_equal stdout) in E. cbn in E.
  apply app_inj_tail in E as [_ [= _ C _]]. contradiction.
Qed.

Lemma emit_result_neq_error st st' id id' result code msg :
  emit (ResultFrame id result) st <> emit (ErrorFrame id' code msg) st'.
Proof.
  intros E. apply (f_equal stdout) in E. cbn in E.
  apply app_inj_tail in E as [_ E]. discriminate E.
Qed.
End ToolCallFacts.

Section ReviewFacts.
Import Spec Catalogue.

Lemma ToString_items x y rest :
  ToString (JArr (x :: y :: rest))
  = match match x with JUndefined | JNull => inr "" | _ => ToString x end with
    | inl e => inl e
    | inr s =>
        match ToString (JArr (y :: rest)) with
        | inl e => inl e
        | inr t => inr (s ++ "," ++ t)
        end
    end.
Proof. reflexivity. Qed.

Lemma ToString_item x :
  ToString (JArr [x])
  = match match x with JUndefined | JNull => inr "" | _ => ToString x end with
    | inl e => inl e
    | inr s => inr s
    end.
Proof. reflexivity. Qed.

(** [ToString] can only fail with the one type error *)
Lemma ToString_error v e :
  ToString v = inl e -> e = TypeError "Cannot convert object to primitive value".
Proof.
  revert v e. fix IH 1. intros [| |[]|repr|s|items|fields] e; try discriminate.
  - revert e. induction items as [|x rest IHrest]; intros e; [discriminate|].
    assert (Hx : forall e', match x with
                            | JUndefined | JNull => inr ""
                            | _ => ToString x
                            end = inl e' ->
                            e' = TypeError "Cannot convert object to primitive value").
    { pose proof (IH x) as Hx0. intros e'.
      destruct x; try discriminate; apply Hx0. }
    destruct rest as [|y rest'].
    + rewrite ToString_item.
      destruct (match x with JUndefined | JNull => inr "" | _ => ToString x end)
        as [e'|s]; [|discriminate].
      intros [= <-]. now apply Hx.
    + rewrite ToString_items.
      destruct (match x with JUndefined | JNull => inr "" | _ => ToString x end)
        as [e'|s].
      * intros [= <-]. now apply Hx.
      * destruct (ToString (JArr (y :: rest'))) as [e'|t]; [|discriminate].
        intros [= <-]. now apply IHrest.
  - cbn. destruct (lookup "toString" fields); [|discriminate]. now intros [= <-].
Qed.

Lemma record_spawn_changes call st : record_spawn call st <> st.
Proof.
  intros E. apply (f_equal (fun s => List.length (spawned s))) in E.
  cbn in E. rewrite length_app in E. cbn in E. lia.
Qed.

End ReviewFacts.

(** ** The event extractor and the runner *)

Section ExtractorExtras.
Import Spec.

(** X1.  Structured capture takes precedence and the last record wins: when
    the child exits with status zero and some line is a thread-started
    record, the run resolves with the identifier of the last such record,
    whatever else the raw output contains. *)
Theorem structured_capture_last_wins env cliArgs cwd label st before line after id :
  child env cliArgs (spawn_dir env cwd) = ProcClose (before ++ line :: after) (Some 0%Z) ->
  thread_started_id env line = Some id ->
  (forall l, In l after -> thread_started_id env l = None) ->
  exists result,
    fst (runCodexJsonl env cliArgs cwd label st) = inr result
    /\ Outcome.sessionId result = id.
Proof.
  intros B T N. unfold runCodexJsonl. cbn [fst].
  rewrite B, (settle_structured env label before line after id T N).
  eexists; split; reflexivity.
Qed.

Lemma structured_capture_last_wins_witness :
  exists result,
    fst (runCodexJsonl
           (Sample.world (ProcClose [Sample.loose_line; Sample.thread_started_line;
                                     "done"] (Some 0%Z)))
           [JStr "exec"] JUndefined "Codex" initial_state) = inr result
    /\ Outcome.sessionId result = JStr Sample.uuid.
Proof.
  refine (structured_capture_last_wins
            (Sample.world (ProcClose [Sample.loose_line; Sample.thread_started_line;
                                      "done"] (Some 0%Z)))
            [JStr "exec"] JUndefined "Codex" initial_state
            [Sample.loose_line] Sample.thread_started_line ["done"]
            (JStr Sample.uuid) eq_refl eq_refl _).
  intros l [<-|[]]. reflexivity.
Defined.

(** X2.  An identifier recovered by the fallback scan is a text of exactly
    36 characters, each a digit, a letter a-f or a hyphen; the scan does not
    check the 8-4-4-4-12 grouping. *)
Theorem fallback_id_shape env cliArgs cwd label st lines result :
  child env cliArgs (spawn_dir env cwd) = ProcClose lines (Some 0%Z) ->
  (forall line, In line lines -> thread_started_id env line = None) ->
  fst (runCodexJsonl env cliArgs cwd label st) = inr result ->
  exists g,
    Outcome.sessionId result = JStr g
    /\ String.length g = 36
    /\ all Pattern.is_idchar g = true
    /\ Pattern.thread_id_match (transcript lines) = Some g.
Proof.
  intros B S R.
  destruct (runCodexJsonl_resolved _ _ _ _ _ _ R) as (lines' & B' & I & _).
  rewrite B in B'. injection B' as <-.
  rewrite extracted_id_spec, last_some_None in I.
  2:{ intros y H. apply in_map_iff in H as (l & <- & H). auto. }
  destruct (Pattern.thread_id_match (transcript lines)) as [g|] eqn:M.
  - exists g. split; [exact I|].
    apply thread_id_match_Some in M as (pre & (ds & post & _ & _ & _ & L & A) & _).
    auto.
  - exfalso. unfold runCodexJsonl in R. cbn [fst] in R. rewrite B in R.
    cbn [settle] in R. rewrite on_close_zero in R.
    change (Jsonl.with_fallback (Jsonl.read_lines env lines))
      with (extracted_id env lines) in R.
    rewrite extracted_id_spec, last_some_None, M in R; [discriminate R|].
    intros y H. apply in_map_iff in H as (l & <- & H). auto.
Qed.

Lemma fallback_id_shape_witness :
  exists g,
    JStr Sample.uuid = JStr g
    /\ String.length g = 36
    /\ all Pattern.is_idchar g = true
    /\ Pattern.thread_id_match (transcript ["starting"; Sample.loose_line]) = Some g.
Proof.
  refine (fallback_id_shape
            (Sample.world (ProcClose ["starting"; Sample.loose_line] (Some 0%Z)))
            [JStr "exec"] JUndefined "Codex" initial_state
            ["starting"; Sample.loose_line]
            {| Outcome.sessionId := JStr Sample.uuid;
               Outcome.output := JStr (transcript ["starting"; Sample.loose_line]) |}
            eq_refl _ eq_refl).
  intros line [<-|[<-|[]]]; reflexivity.
Defined.

Lemma carries_event_false env line :
  carries_event env line = false ->
  thread_started_id env line = None /\ agent_message_text env line = None.
Proof.
  unfold carries_event.
  destruct (thread_started_id env line), (agent_message_text env line);
    try discriminate; auto.
Qed.

Lemma last_some_filter env (f : string -> option JSValue) lines :
  (forall l, carries_event env l = false -> f l = None) ->
  last_some (map f (filter (carries_event env) lines)) = last_some (map f lines).
Proof.
  intros H. induction lines as [|l lines IH]; [reflexivity|].
  cbn [filter]. destruct (carries_event env l) eqn:C; cbn [map last_some].
  - now rewrite IH.
  - rewrite IH, (H _ C). now destruct (last_some (map f lines)).
Qed.

(** X3.  Lines that are not one of the two events (blank lines, text that
    is not JSON, the JSON value null, records of other types) change nothing
    but the raw transcript: the captured identifier and final message are
    those of the event lines alone, and the transcript keeps every line. *)
Theorem noise_lines_ignored env lines :
  Jsonl.sessionId (Jsonl.read_lines env lines)
  = Jsonl.sessionId (Jsonl.read_lines env (filter (carries_event env) lines))
  /\ Jsonl.finalMessage (Jsonl.read_lines env lines)
     = Jsonl.finalMessage (Jsonl.read_lines env (filter (carries_event env) lines))
  /\ Jsonl.rawOutput (Jsonl.read_lines env lines) = transcript lines
  /\ (forall line,
        is_empty (trim line) = true
        \/ (exists e, JSON_parse env (trim line) = inl e)
        \/ JSON_parse env (trim line) = inr JNull
        \/ (exists json, JSON_parse env (trim line) = inr json
                         /\ get_opt json "type" <> JStr "thread.started"
                         /\ get_opt json "type" <> JStr "item.completed") ->
        carries_event env line = false).
Proof.
  unfold Jsonl.read_lines. rewrite !fold_structured, !fold_finalMessage.
  repeat apply conj.
  - rewrite last_some_filter; [reflexivity|]. intros l C.
    now apply carries_event_false in C.
  - rewrite last_some_filter; [reflexivity|]. intros l C.
    now apply carries_event_false in C.
  - apply read_rawOutput.
  - intros line H. unfold carries_event, thread_started_id, agent_message_text.
    destruct (is_empty (trim line)); [reflexivity|].
    destruct H as [H|[(e & H)|[H|(json & H & N1 & N2)]]]; try discriminate H;
      rewrite H; try reflexivity.
    apply strict_eq_str_false in N1, N2. now rewrite N1, N2.
Qed.
End ExtractorExtras.

(** ** The effects of one line and of a run *)

Section EffectExtras.
Import Spec Effects.

(** X4.  What the server answers, logs and spawns for an inbound line does
    not depend on the state it is in: not on the registry (a resume is not
    checked against it), not on earlier requests (no handshake is
    enforced).  The frames, log entries and spawn calls added are those the
    same line adds to the initial state. *)
Theorem on_line_state_independent env line st :
  stdout (on_line env line st)
  = (stdout st ++ stdout (on_line env line initial_state))%list
  /\ logged (on_line env line st)
     = (logged st ++ logged (on_line env line initial_state))%list
  /\ spawned (on_line env line st)
     = (spawned st ++ spawned (on_line env line initial_state))%list.
Proof.
  unfold on_line. destruct (oblivious_route env line st) as (R & O & L & S).
  destruct (route env line st) as [[e|u] st1],
           (route env line initial_state) as [[e0|u0] st0];
    cbn [fst snd] in *; try discriminate R.
  - injection R as <-. cbn. rewrite O, L, S. now rewrite app_assoc.
  - auto.
Qed.
End EffectExtras.

Section LineExtras.
Import Spec Effects.


End LineExtras.

(** ** Routing *)

Section RoutingExtras.
Import Spec Effects.

(** X15.  Every method but tools/call has a fixed effect, whatever the
    params and the state: initialize and tools/list write their one result
    frame, initialized writes nothing, any other method (also a missing
    one) writes the method-not-found error with code -32601.  Nothing is
    spawned, logged or registered. *)
Theorem plain_methods env line st message method :
  JSON_parse env line = inr message ->
  get message "method" = inr method ->
  method <> JStr "tools/call" ->
  on_line env line st
  = if strict_eq_str method "initialize"
    then emit (ResultFrame (get_opt message "id") initialize_result) st
    else if strict_eq_str method "initialized" then st
    else if strict_eq_str method "tools/list"
    then emit (ResultFrame (get_opt message "id") (JObj [("tools", JArr tools)])) st
    else emit (ErrorFrame (get_opt message "id") (-32601) "Method not found") st.
Proof.
  intros P G N. unfold on_line. rewrite (route_message env line message method st P G).
  apply strict_eq_str_false in N. rewrite N.
  now repeat match goal with |- context [if ?b then _ else _] => destruct b end.
Qed.

Lemma plain_methods_witness :
  on_line (Sample.world Sample.healthy) (Sample.request_line "7" "initialized" "")
    initial_state
  = initial_state.
Proof.
  exact (plain_methods (Sample.world Sample.healthy)
           (Sample.request_line "7" "initialized" "") initial_state
           (Sample.request "7" "initialized" []) (JStr "initialized")
           eq_refl eq_refl ltac:(discriminate)).
Defined.

End RoutingExtras.

(** ** Tool calls *)

Section ToolCallExtras.
Import Spec Catalogue.

(** X7.  The answer to a call of a known tool.  If the pipeline rejects
    with an error, the answer is one error frame with code -32603 and the
    message of that error.  If it resolves, the answer is one result frame
    whose content is the display text followed by the text made of a
    newline, [SESSION_ID: , the identifier and ].  In both cases the frame
    carries the id of the request and nothing else changes after the
    pipeline. *)
Theorem tool_call_response env message st name args run :
  destructure_params (get_opt message "params") = inr (name, args) ->
  tool_pipeline env name args = Some run ->
  (forall e st', run st = (inl e, st') ->
     handleToolCall env message st
     = (inr tt, emit (ErrorFrame (get_opt message "id") (-32603) (message_of e)) st'))
  /\ (forall result st' sid,
        run st = (inr result, st') ->
        ToString (Outcome.sessionId result) = inr sid ->
        handleToolCall env message st
        = (inr tt,
           emit (ResultFrame (get_opt message "id")
                   (content (Outcome.output result) sid)) st')).
Proof.
  intros D K. rewrite (handleToolCall_known env message st name args run D K).
  split.
  - intros e st' ->. reflexivity.
  - intros result st' sid -> T. now rewrite (tool_content_text _ _ T).
Qed.

Lemma tool_call_response_witness :
  handleToolCall (Sample.world Sample.healthy)
    (Sample.request "5" "tools/call" (Sample.call "codex-review" [("mode", JStr "base")]))
    initial_state
  = (inr tt, emit (ErrorFrame (JNum "5") (-32603) "mode=base requires base")
               initial_state).
Proof.
  exact (proj1 (tool_call_response (Sample.world Sample.healthy)
                  (Sample.request "5" "tools/call"
                     (Sample.call "codex-review" [("mode", JStr "base")]))
                  initial_state _ _ _ eq_refl eq_refl)
           (Error "mode=base requires base") initial_state eq_refl).
Defined.

(** X8.  The tools the server lists are exactly the tools it runs: a call
    is answered with the unknown-tool error (code -32602, naming the tool,
    nothing spawned, nothing else changed) if and only if its name is not
    among the names of [tools/list]. *)
Theorem advertised_tools_are_dispatched env message st name args :
  destructure_params (get_opt message "params") = inr (JStr name, args) ->
  (~ In (JStr name) advertised
   <-> handleToolCall env message st
       = (inr tt,
          emit (ErrorFrame (get_opt message "id") (-32602) ("Unknown tool: " ++ name))
            st)).
Proof.
  intros D. rewrite <- (tool_pipeline_advertised env name args).
  destruct (tool_pipeline env (JStr name) args) as [run|] eqn:K.
  - rewrite (handleToolCall_known env message st _ _ run D K). split.
    + intros H. contradiction H. discriminate.
    + intros H _.
      destruct (run st) as [[e|result] st'].
      * apply (f_equal snd) in H. revert H. apply emit_neq_code. discriminate.
      * destruct (tool_content result); apply (f_equal snd) in H; revert H;
          [apply emit_neq_code; discriminate | apply emit_result_neq_error].
  - rewrite (handleToolCall_unknown env message st _ _ D K). cbn [ToString].
    split; [reflexivity | intros _ H; now apply H].
Qed.

Lemma advertised_tools_are_dispatched_witness :
  ~ In (JStr "codex-status") advertised
  <-> handleToolCall (Sample.world Sample.healthy)
        (Sample.request "9" "tools/call" (Sample.call "codex-status" []))
        initial_state
      = (inr tt,
         emit (ErrorFrame (JNum "9") (-32602) "Unknown tool: codex-status")
           initial_state).
Proof.
  exact (advertised_tools_are_dispatched (Sample.world Sample.healthy)
           (Sample.request "9" "tools/call" (Sample.call "codex-status" []))
           initial_state "codex-status" (JObj []) eq_refl).
Defined.

(** X9.  A call of a known tool whose arguments are absent or null spawns
    nothing and is answered with one error frame of code -32603; for a
    review the message is the missing-mode message. *)
Theorem tool_call_without_arguments env message st name args run :
  destructure_params (get_opt message "params") = inr (name, args) ->
  tool_pipeline env name args = Some run ->
  args = JUndefined \/ args = JNull ->
  (exists msg,
     handleToolCall env message st
     = (inr tt, emit (ErrorFrame (get_opt message "id") (-32603) msg) st))
  /\ (name = JStr "codex-review" ->
      handleToolCall env message st
      = (inr tt,
         emit (ErrorFrame (get_opt message "id") (-32603) "codex-review requires mode")
           st)).
Proof.
  intros D K A. rewrite (handleToolCall_known env message st name args run D K).
  unfold tool_pipeline in K.
  destruct (strict_eq_str name "codex") eqn:N1.
  { injection K as <-. apply strict_eq_str_true in N1 as ->.
    split; [|discriminate]. destruct A as [-> | ->]; eexists; reflexivity. }
  destruct (strict_eq_str name "codex-reply") eqn:N2.
  { injection K as <-. apply strict_eq_str_true in N2 as ->.
    split; [|discriminate]. destruct A as [-> | ->]; eexists; reflexivity. }
  destruct (strict_eq_str name "codex-review"); [|discriminate K].
  injection K as <-.
  split; [|intros _]; destruct A as [-> | ->]; try eexists; reflexivity.
Qed.

Lemma tool_call_without_arguments_witness :
  exists msg,
    handleToolCall (Sample.world Sample.healthy)
      (JObj [("id", JNum "3"); ("method", JStr "tools/call");
             ("params", JObj [("name", JStr "codex")])])
      initial_state
    = (inr tt, emit (ErrorFrame (JNum "3") (-32603) msg) initial_state).
Proof.
  exact (proj1 (tool_call_without_arguments (Sample.world Sample.healthy)
                  (JObj [("id", JNum "3"); ("method", JStr "tools/call");
                         ("params", JObj [("name", JStr "codex")])])
                  initial_state _ _ _ eq_refl eq_refl (or_introl eq_refl))).
Defined.
End ToolCallExtras.

Section ReviewExtras.
Import Spec Catalogue.

(** X10.  The mode values listed in the schema are exactly the modes a
    review accepts: for a non-empty mode text, the review is rejected with
    the unknown-mode error, the state untouched, if and only if the text is
    not among the listed values. *)
Theorem mode_enum_is_accepted env args st m :
  get_opt args "mode" = JStr m ->
  m <> "" ->
  (~ In (JStr m) mode_enum
   <-> runCodexReview env args st
       = (inl (Error ("Unknown review mode: " ++ m)), st)).
Proof.
  intros E N. rewrite runCodexReview_eq, (review_mode_present args m E N), E.
  unfold review_options, mode_enum. cbn [strict_eq_str].
  assert (S : forall cliArgs cwd label e,
             runCodexJsonl env cliArgs cwd label st <> (inl e, st)).
  { intros cliArgs cwd label e H. apply (f_equal snd) in H.
    rewrite runCodexJsonl_state in H. now apply record_spawn_changes in H. }
  destruct (String.eqb_spec m "uncommitted") as [->|N1].
  { split; [intros H; contradiction H; cbn; auto | intros H; now apply S in H]. }
  destruct (String.eqb_spec m "base") as [->|N2].
  { split; [intros H; contradiction H; cbn; auto|]. intros H _. revert H.
    destruct (negb (truthy (get_opt args "base"))); [discriminate|].
    destruct (ToString (get_opt args "base")) as [e|s] eqn:V.
    - apply ToString_error in V as ->. discriminate.
    - apply S. }
  destruct (String.eqb_spec m "commit") as [->|N3].
  { split; [intros H; contradiction H; cbn; auto|]. intros H _. revert H.
    destruct (negb (truthy (get_opt args "commit"))); [discriminate|].
    destruct (ToString (get_opt args "commit")) as [e|s] eqn:V.
    - apply ToString_error in V as ->. discriminate.
    - apply S. }
  destruct (String.eqb_spec m "custom") as [->|N4].
  { split; [intros H; contradiction H; cbn; auto|]. intros H _. revert H.
    destruct (negb (truthy (get_opt args "prompt"))); [discriminate|].
    destruct (call_trim "args.prompt" (get_opt args "prompt")) as [e|t] eqn:V.
    - destruct (get_opt args "prompt"); cbn in V; try discriminate V;
        injection V as <-; discriminate.
    - destruct (is_empty t); [discriminate | apply S]. }
  cbn [ToString]. split; [reflexivity|]. intros _ H. cbn in H.
  destruct H as [[= H]|[[= H]|[[= H]|[[= H]|[]]]]]; congruence.
Qed.

Lemma mode_enum_is_accepted_witness :
  ~ In (JStr "staged") mode_enum
  <-> runCodexReview (Sample.world Sample.healthy) (JObj [("mode", JStr "staged")])
        initial_state
      = (inl (Error "Unknown review mode: staged"), initial_state).
Proof.
  refine (mode_enum_is_accepted (Sample.world Sample.healthy)
            (JObj [("mode", JStr "staged")]) initial_state "staged" eq_refl _).
  discriminate.
Defined.

(** X11.  The command a valid review runs, by mode: after exec, the
    optional -C pair, --json and review come --uncommitted; or --base and
    the base as text; or --commit and the commit as text; or the prompt,
    trimmed.  The parameters of the other modes are ignored, and the child
    runs in the supplied directory, else in the server's own. *)
Theorem review_command env args st :
  let mode := get_opt args "mode" in
  let cwd := get_opt args "cwd" in
  let spawn options :=
    runCodexJsonl env
      ([JStr "exec"] ++ (if truthy cwd then [JStr "-C"; cwd] else [])
         ++ [JStr "--json"; JStr "review"] ++ options)%list
      cwd "Codex review" st in
  (mode = JStr "uncommitted" ->
   runCodexReview env args st = spawn [JStr "--uncommitted"])
  /\ (forall b, mode = JStr "base" ->
        truthy (get_opt args "base") = true -> ToString (get_opt args "base") = inr b ->
        runCodexReview env args st = spawn [JStr "--base"; JStr b])
  /\ (forall c, mode = JStr "commit" ->
        truthy (get_opt args "commit") = true ->
        ToString (get_opt args "commit") = inr c ->
        runCodexReview env args st = spawn [JStr "--commit"; JStr c])
  /\ (forall p, mode = JStr "custom" ->
        get_opt args "prompt" = JStr p -> ~ blank p ->
        runCodexReview env args st = spawn [JStr (trim p)]).
Proof.
  cbn zeta. rewrite runCodexReview_eq. repeat apply conj.
  - intros E. rewrite (review_mode_present args _ E) by discriminate.
    now rewrite E.
  - intros b E T S. rewrite (review_mode_present args _ E) by discriminate.
    rewrite E. unfold review_options. cbn [strict_eq_str String.eqb Ascii.eqb Bool.eqb].
    cbn. now rewrite T, S.
  - intros c E T S. rewrite (review_mode_present args _ E) by discriminate.
    rewrite E. unfold review_options. cbn. now rewrite T, S.
  - intros p E P B. rewrite (review_mode_present args _ E) by discriminate.
    rewrite E, <- trim_empty_blank in *. unfold review_options. cbn. rewrite P.
    destruct p as [|a p]; [now contradiction B|]. cbn [truthy is_empty negb call_trim].
    destruct (trim (String a p)) eqn:R; [now contradiction B|]. reflexivity.
Qed.

Lemma review_command_witness :
  runCodexReview (Sample.world Sample.healthy)
    (JObj [("mode", JStr "custom"); ("prompt", JStr "  Focus on security.  ");
           ("base", JStr "main"); ("cwd", JStr "/repo")])
    initial_state
  = runCodexJsonl (Sample.world Sample.healthy)
      [JStr "exec"; JStr "-C"; JStr "/repo"; JStr "--json"; JStr "review";
       JStr "Focus on security."]
      (JStr "/repo") "Codex review" initial_state.
Proof.
  refine (proj2 (proj2 (proj2 (review_command (Sample.world Sample.healthy)
            (JObj [("mode", JStr "custom"); ("prompt", JStr "  Focus on security.  ");
                   ("base", JStr "main"); ("cwd", JStr "/repo")])
            initial_state)))
            "  Focus on security.  " eq_refl eq_refl _).
  intros B. apply trim_empty_blank in B. discriminate B.
Defined.
End ReviewExtras.

Section StartExtras.
Import Spec Catalogue Registry.





Lemma run_registry_invariant inputs st :
  distinct_keys (sessions st) ->
  (forall k, In k (keys (sessions st)) -> truthy k = true) ->
  distinct_keys (sessions (run inputs st))
  /\ (forall k, In k (keys (sessions (run inputs st))) -> truthy k = true).
Proof.
  revert st; induction inputs as [|[env line] inputs IH]; intros st D T;
    cbn [run]; [auto|].
  apply IH; rewrite on_line_sessions;
    destruct (started env line) as [result|] eqn:S; auto.
  - now apply map_set_distinct.
  - intros k I. apply keys_map_set in I as [I| ->]; [auto|].
    now apply started_truthy in S.
Qed.

(** X14.  An invariant of the registry over every run from the empty
    registry: no two records share a key (keys compared as the Map compares
    them), and every key is truthy, so never null, undefined or the empty
    text. *)
Theorem registry_invariant inputs :
  distinct_keys (sessions (run inputs initial_state))
  /\ (forall k, In k (keys (sessions (run inputs initial_state))) -> truthy k = true).
Proof.
  apply run_registry_invariant; cbn; [constructor | intros k []].
Qed.
End StartExtras.

Section ResumeExtras.
Import Spec Catalogue.

(** X17.  End to end, a resume that fails.  For a tools/call of the tool
    codex-reply whose arguments can be read, one child is spawned with the
    resume command in the server's directory; whenever the run rejects, the
    answer is one error frame with code -32603 carrying the message of the
    error, and when the child closed with a status other than zero that
    message is the label Codex resume, the words exited with code, and the
    status.  The identifier is not looked up in the registry, and the
    registry is left as it was. *)
Theorem resume_failure_end_to_end env line st message args sessionId prompt :
  let call :=
    {| argv := [JStr "exec"; JStr "--json"; JStr "resume"; sessionId; prompt];
       spawn_cwd := JStr (process_cwd env) |} in
  let behaviour := child env (argv call) (spawn_cwd call) in
  JSON_parse env line = inr message ->
  get message "method" = inr (JStr "tools/call") ->
  destructure_params (get_opt message "params") = inr (JStr "codex-reply", args) ->
  get args "sessionId" = inr sessionId ->
  get args "prompt" = inr prompt ->
  (forall e, settle env "Codex resume" behaviour = inl e ->
     on_line env line st
     = emit (ErrorFrame (get_opt message "id") (-32603) (message_of e))
         (record_spawn call st))
  /\ (forall lines code, behaviour = ProcClose lines code -> code <> Some 0%Z ->
        on_line env line st
        = emit (ErrorFrame (get_opt message "id") (-32603)
                  ("Codex resume exited with code " ++ Jsonl.show_code code))
            (record_spawn call st)).
Proof.
  cbn zeta. intros P G D S Q.
  assert (F : forall e,
             settle env "Codex resume"
               (child env [JStr "exec"; JStr "--json"; JStr "resume"; sessionId; prompt]
                  (JStr (process_cwd env))) = inl e ->
             on_line env line st
             = emit (ErrorFrame (get_opt message "id") (-32603) (message_of e))
                 (record_spawn
                    {| argv := [JStr "exec"; JStr "--json"; JStr "resume"; sessionId;
                                prompt];
                       spawn_cwd := JStr (process_cwd env) |} st)).
  { intros e E. unfold on_line.
    rewrite (route_message env line message _ st P G). cbn -[handleToolCall].
    rewrite (handleToolCall_known env message st _ _ _ D eq_refl).
    unfold bind, lift. rewrite S, Q. unfold runCodexResume.
    rewrite runCodexJsonl_eq. unfold spawn_dir. cbn [truthy]. now rewrite E. }
  split; [exact F|].
  intros lines code B N.
  apply (F (Error ("Codex resume exited with code " ++ Jsonl.show_code code))).
  cbn [argv spawn_cwd] in B. rewrite B. cbn [settle].
  now apply on_close_nonzero.
Qed.

Lemma resume_failure_end_to_end_witness :
  on_line (Sample.world (ProcClose ["boom"] (Some 2%Z)))
    (Sample.request_line "1" "tools/call" (Sample.call_params "codex-reply" "{}"))
    initial_state
  = emit (ErrorFrame (JNum "1") (-32603) "Codex resume exited with code 2")
      (record_spawn
         {| argv := [JStr "exec"; JStr "--json"; JStr "resume"; JUndefined; JUndefined];
            spawn_cwd := JStr "/srv/app" |} initial_state).
Proof.
  refine (proj2 (resume_failure_end_to_end
                   (Sample.world (ProcClose ["boom"] (Some 2%Z)))
                   (Sample.request_line "1" "tools/call"
                      (Sample.call_params "codex-reply" "{}"))
                   initial_state
                   (Sample.request "1" "tools/call" (Sample.call "codex-reply" []))
                   (JObj []) JUndefined JUndefined
                   eq_refl eq_refl eq_refl eq_refl eq_refl)
            ["boom"] (Some 2%Z) eq_refl _).
  discriminate.
Defined.
End ResumeExtras.
